(** * codealive-installer: the MCP client adapters and key verification

    A shallow embedding of [src/clients.ts] (the agent adapters, their
    JSON-config base class, the two CLI adapters, the registry), of
    [verifyKey] and [getApiKeyCi] from [src/auth.ts] and of the credential
    store of [src/credentials.ts], with the properties the specification
    states about them and further properties of the code.

    Everything outside the program is a value of the model:
    - the file system is a finite map from paths to nodes;
    - [process.platform], [process.env] and [os.homedir()] form a [host];
    - an external program ([which], [claude], [codex], the programs of
      the credential stores) answers through a [responder], a function of the invocations made so far and of the
      current one, so a program can remember what it was told;
    - the HTTP exchange of [verifyKey] is a [fetch_outcome];
    - [debug] only prints to the console when the debug flag is on, and is
      left out.

    A config file's text is kept as the syntax tree the jsonc-parser
    library recovers from it: the members of an object in the order of the
    text, a repeated member name as often as the text has it.  Comments and
    white space are not represented.  The parser is tolerant: it recovers a
    tree from a text that stops before its closing brackets as well, and
    the text keeps a mark for that.  A text with other syntax errors is
    taken for the tree recovered from it; that the library's two readers
    ([parse] for values, [parseTree] for edits) recover the same tree is
    assumed of it. *)

From Stdlib Require Import Ascii DecimalString.
From stdpp Require Import gmap strings list fin_maps.

#[local] Set Warnings "-register-all".

(** ** Strings *)

(** [String.prototype.includes]: [needle] occurs somewhere in [hay]. *)
Fixpoint includes (hay needle : string) : bool :=
  String.prefix needle hay ||
  match hay with
  | EmptyString => false
  | String _ rest => includes rest needle
  end.

(** [String(n)] and the template hole [${n}] for a non-negative integer. *)
Definition show_nat (n : nat) : string :=
  NilEmpty.string_of_uint (Nat.to_uint n).

(** JavaScript truthiness of [string | undefined]: a value is there and it
    is not the empty string. *)
Definition truthy (o : option string) : bool :=
  match o with
  | Some s => if decide (s = "") then false else true
  | None => false
  end.

(** [o || ''] *)
Definition or_empty (o : option string) : string := default "" o.

(** ** Paths: [path.join] and [path.dirname]

    POSIX flavour: zero-length parts are skipped and the rest is joined
    with a slash.  Node also normalises [..] and doubled slashes, and on a
    Windows host it joins with a backslash; neither is represented. *)
Definition path_join (parts : list string) : string :=
  match filter (λ s, s ≠ "") parts with
  | [] => "."
  | ps => String.concat "/" ps
  end.

(** The text before the last slash of [s], when [s] has a slash. *)
Fixpoint before_last_slash (s : string) : option string :=
  match s with
  | EmptyString => None
  | String c rest =>
      match before_last_slash rest with
      | Some d => Some (String c d)
      | None => if Ascii.eqb c "/"%char then Some EmptyString else None
      end
  end.

Definition path_dirname (p : string) : string :=
  match before_last_slash p with
  | Some EmptyString => "/"
  | Some d => d
  | None => "."
  end.

(** Every prefix of [rest] that stops in front of a slash, each behind
    [seen]: the ancestors [mkdir] with [recursive: true] walks through. *)
Fixpoint ancestors_from (seen rest : string) : list string :=
  match rest with
  | EmptyString => []
  | String c r =>
      (if Ascii.eqb c "/"%char then
         if decide (seen = "") then [] else [seen]
       else []) ++ ancestors_from (seen +:+ String c EmptyString) r
  end.

Definition ancestors (p : string) : list string := ancestors_from "" p.

(** ** JSON values, thrown values, results *)

(** The syntax tree of a JSON text, as [parseTree] of jsonc-parser gives
    it: the members of an object are in the order of the text, and a name
    can occur more than once. *)
Inductive json : Type :=
  | JNull
  | JBool (b : bool)
  | JNum (literal : string)
  | JStr (s : string)
  | JArr (items : list json)
  | JObj (members : list (string * json)).

(** A JavaScript value built from JSON: an object has its own properties
    and a prototype, [None] for the default [Object.prototype], [Some VNull]
    for no prototype at all, [Some v] for the object or array [v]. *)
Inductive value : Type :=
  | VNull
  | VBool (b : bool)
  | VNum (literal : string)
  | VStr (s : string)
  | VArr (items : list value)
  | VObj (own : gmap string value) (proto : option value).

(** The text of a file: the tree the tolerant parser recovers from it
    ([None] when the text holds no value: an empty file, comments only),
    and whether the text stops before its closing brackets.  Such a text
    is not valid JSON, and the parser reports errors for it, which
    [clients.ts] never asks for. *)
Record text : Type := {
  document : option json;
  truncated : bool
}.

(** [''] *)
Definition empty_text : text := {| document := None; truncated := false |}.

(** A complete text holding [doc]. *)
Definition text_of (doc : json) : text :=
  {| document := Some doc; truncated := false |}.

(** What a [catch] clause receives: an [Error] instance with its [name] and
    [message], or some other value with its [String(...)] rendering. *)
Inductive thrown : Type :=
  | ErrorObj (name message : string)
  | NonError (rendering : string).

(** [error instanceof Error ? error.message : String(error)] *)
Definition error_text (e : thrown) : string :=
  match e with
  | ErrorObj _ message => message
  | NonError rendering => rendering
  end.

Inductive result (A : Type) : Type :=
  | Ok (a : A)
  | Throw (e : thrown).
Arguments Ok {A} a.
Arguments Throw {A} e.

(** [types.ts] *)
Record InstallResult : Type := {
  success : bool;
  error : option string
}.

Record VerifyResult : Type := {
  valid : bool;
  message : string;
  datasourceCount : option nat
}.

Definition succeeded : InstallResult := {| success := true; error := None |}.
Definition failed (msg : string) : InstallResult :=
  {| success := false; error := Some msg |}.

(** ** The world the adapters run in *)

Inductive fsnode : Type :=
  | File (content : text)
  | Dir.

Record host : Type := {
  platform : string;
  env : gmap string string;
  homedir : string
}.

Record invocation : Type := {
  inv_file : string;
  inv_args : list string
}.

Record world : Type := {
  fs : gmap string fsnode;
  machine : host;
  (** every [execFileSync] so far, oldest first *)
  history : list invocation;
  (** the external programs: standard output, or the error [execFileSync]
      throws (missing binary, non-zero exit, timeout) *)
  responder : list invocation → invocation → result string;
  (** the private field [cachedBinary] of the [ClaudeCodeClient] instance *)
  cachedBinary : option string
}.

Definition set_fs (f : gmap string fsnode) (w : world) : world :=
  {| fs := f; machine := machine w; history := history w;
     responder := responder w; cachedBinary := cachedBinary w |}.

Definition set_history (h : list invocation) (w : world) : world :=
  {| fs := fs w; machine := machine w; history := h;
     responder := responder w; cachedBinary := cachedBinary w |}.

Definition set_cachedBinary (b : option string) (w : world) : world :=
  {| fs := fs w; machine := machine w; history := history w;
     responder := responder w; cachedBinary := b |}.

Definition set_platform (p : string) (h : host) : host :=
  {| platform := p; env := env h; homedir := homedir h |}.

(** ** Computations: a state over [world] that may throw *)

Definition M (A : Type) : Type := world → result A * world.

#[export] Instance M_ret : MRet M := λ A a w, (Ok a, w).

#[export] Instance M_bind : MBind M := λ A B f m w,
  match m w with
  | (Ok a, w') => f a w'
  | (Throw e, w') => (Throw e, w')
  end.

Definition throw {A : Type} (e : thrown) : M A := λ w, (Throw e, w).

(** [try { body } catch (error) { handler(error) }].  What [body] did to the
    world before it threw stays done. *)
Definition try_catch {A : Type} (body : M A) (handler : thrown → M A) : M A :=
  λ w, match body w with
       | (Ok a, w') => (Ok a, w')
       | (Throw e, w') => handler e w'
       end.

(** A pure step that may throw. *)
Definition lift {A : Type} (r : result A) : M A := λ w, (r, w).

Definition get_host : M host := λ w, (Ok (machine w), w).

Definition get_cachedBinary : M (option string) :=
  λ w, (Ok (cachedBinary w), w).

Definition put_cachedBinary (b : option string) : M unit :=
  λ w, (Ok (), set_cachedBinary b w).

(** *** [fs] *)

Definition existsSync (p : string) : M bool :=
  λ w, (Ok (bool_decide (is_Some (fs w !! p))), w).

Definition readFile (p : string) : M text :=
  λ w, match fs w !! p with
       | Some (File content) => (Ok content, w)
       | Some Dir => (Throw (ErrorObj "Error" "EISDIR: illegal operation on a directory, read"), w)
       | None => (Throw (ErrorObj "Error" "ENOENT: no such file or directory"), w)
       end.

(** [writeFile] wants the parent directory to be there and the path not to
    be a directory. *)
Definition writeFile (p : string) (content : text) : M unit :=
  λ w, match fs w !! p with
       | Some Dir => (Throw (ErrorObj "Error" "EISDIR: illegal operation on a directory, open"), w)
       | _ =>
           match fs w !! path_dirname p with
           | Some Dir => (Ok (), set_fs (<[p := File content]> (fs w)) w)
           | Some (File _) => (Throw (ErrorObj "Error" "ENOTDIR: not a directory, open"), w)
           | None => (Throw (ErrorObj "Error" "ENOENT: no such file or directory, open"), w)
           end
       end.

(** One level of [mkdir]: fine when the directory is there already. *)
Definition mkdir_one (d : string) : M unit :=
  λ w, match fs w !! d with
       | Some (File _) => (Throw (ErrorObj "Error" "EEXIST: file already exists, mkdir"), w)
       | Some Dir => (Ok (), w)
       | None => (Ok (), set_fs (<[d := Dir]> (fs w)) w)
       end.

Fixpoint mkdir_each (ds : list string) : M unit :=
  match ds with
  | [] => mret ()
  | d :: rest => _ ← mkdir_one d; mkdir_each rest
  end.

(** [fs.promises.mkdir(d, { recursive: true })] *)
Definition mkdir_recursive (d : string) : M unit :=
  _ ← mkdir_each (ancestors d); mkdir_one d.

(** *** [child_process] *)

(** [execFileSync(file, args, { stdio: 'pipe', timeout })]: the call is
    recorded and the program answers. *)
Definition execFileSync (file : string) (args : list string) : M string :=
  λ w, let i := {| inv_file := file; inv_args := args |} in
       (responder w (history w) i, set_history (history w ++ [i]) w).

(** ** The jsonc-parser library, on syntax trees

    [parse], [modify] and [applyEdits] of the external package
    [jsonc-parser], which [clients.ts] imports as [jsonc].  The library
    edits text; here an edit says what happens to the tree.

    [parse] builds each object by assigning its members in the order of
    the text, [object[name] = value]: a repeated name keeps its last value,
    and a member named [__proto__] is no property of the object: when its
    value is an object, an array or [null] it becomes the prototype, and
    otherwise the assignment does nothing.

    [modify] follows the library's [setProperty], which walks the tree with
    [findNodeAtLocation]: the first member with the name counts.  Setting
    a value creates the objects that are missing on the way; removing
    throws when the path to the parent leads nowhere, and is no edit at all
    when only the last key is missing; a parent that is not an object
    throws. *)
Module jsonc.

(** [object[name] = v] on the object that is being built. *)
Definition assign (o : gmap string value * option value) (member : string * value)
  : gmap string value * option value :=
  let '(own, proto) := o in
  let '(name, v) := member in
  if decide (name = "__proto__") then
    match v with
    | VObj _ _ | VArr _ | VNull => (own, Some v)
    | _ => o
    end
  else (<[name := v]> own, proto).

Fixpoint to_value (node : json) : value :=
  match node with
  | JNull => VNull
  | JBool b => VBool b
  | JNum literal => VNum literal
  | JStr s => VStr s
  | JArr items => VArr (to_value <$> items)
  | JObj members =>
      let '(own, proto) :=
        foldl assign (∅, None) ((λ '(name, v), (name, to_value v)) <$> members) in
      VObj own proto
  end.

(** [parse(text)]: the value of the text, [undefined] when it has none.
    The parser is tolerant and does not throw. *)
Definition parse (content : text) : option value :=
  to_value <$> document content.

(** The value of the first member called [segment]. *)
Fixpoint property_value (segment : string) (members : list (string * json))
  : option json :=
  match members with
  | [] => None
  | (name, v) :: rest =>
      if decide (name = segment) then Some v else property_value segment rest
  end.

(** The node a path of member names leads to. *)
Fixpoint findNodeAtLocation (root : json) (path : list string) : option json :=
  match path with
  | [] => Some root
  | segment :: rest =>
      match root with
      | JObj members =>
          property_value segment members ≫= λ node, findNodeAtLocation node rest
      | _ => None
      end
  end.

Inductive edit : Type :=
  | ReplaceDocument (value : json)
  | ReplaceValue (location : list string) (value : json)
  | InsertProperty (parent : list string) (key : string) (value : json)
  | RemoveProperty (parent : list string) (key : string).

Definition node_type (node : json) : string :=
  match node with
  | JNull => "null"
  | JBool _ => "boolean"
  | JNum _ => "number"
  | JStr _ => "string"
  | JArr _ => "array"
  | JObj _ => "object"
  end.

(** The loop of [setProperty]: segments are popped from the end of the
    path ([rpath] is the path reversed) until the rest of the path leads to
    a node; while a value is being set, each level that is missing wraps
    the value in an object.  Gives the parent found (its location, the
    node, the segment popped last) and the value to use. *)
Fixpoint find_parent (root : option json) (rpath : list string)
    (value : option json)
  : option (list string * json * string) * option json :=
  match rpath with
  | [] => (None, value)
  | lastSegment :: rest =>
      match root ≫= (λ r, findNodeAtLocation r (rev rest)), value with
      | None, Some v => find_parent root rest (Some (JObj [(lastSegment, v)]))
      | None, None => (None, None)
      | Some parent, _ => (Some (rev rest, parent, lastSegment), value)
      end
  end.

(** [modify(text, path, value, options)]; [value = None] is [undefined] and
    asks for the removal; a value is given as the tree of its
    [JSON.stringify] text.  The formatting options only shape white
    space. *)
Definition modify (content : text) (path : list string)
    (value : option json) : result (list edit) :=
  match find_parent (document content) (rev path) value with
  | (None, None) => Throw (ErrorObj "Error" "Can not delete in empty document")
  | (None, Some v) => Ok [ReplaceDocument v]
  | (Some (location, JObj members, lastSegment), value') =>
      match property_value lastSegment members, value' with
      | Some _, None => Ok [RemoveProperty location lastSegment]
      | Some _, Some v => Ok [ReplaceValue (location ++ [lastSegment]) v]
      | None, None => Ok []
      | None, Some v => Ok [InsertProperty location lastSegment v]
      end
  | (Some (_, parent, _), _) =>
      Throw (ErrorObj "Error"
               ("Can not add index to parent of type " +:+ node_type parent))
  end.

(** [f] on the value of the first member called [segment]. *)
Fixpoint alter_first (f : json → json) (segment : string)
    (members : list (string * json)) : list (string * json) :=
  match members with
  | [] => []
  | (name, v) :: rest =>
      if decide (name = segment) then (name, f v) :: rest
      else (name, v) :: alter_first f segment rest
  end.

(** The members without the first one called [segment]. *)
Fixpoint remove_first (segment : string) (members : list (string * json))
  : list (string * json) :=
  match members with
  | [] => []
  | (name, v) :: rest =>
      if decide (name = segment) then rest
      else (name, v) :: remove_first segment rest
  end.

Fixpoint alterAt (f : json → json) (path : list string) (root : json) : json :=
  match path with
  | [] => f root
  | segment :: rest =>
      match root with
      | JObj members => JObj (alter_first (alterAt f rest) segment members)
      | _ => root
      end
  end.

(** One edit, on the tree.  A new property goes behind the last member. *)
Definition applyEdit (doc : option json) (e : edit) : option json :=
  match e with
  | ReplaceDocument value => Some value
  | ReplaceValue location value => alterAt (λ _, value) location <$> doc
  | InsertProperty parent key value =>
      alterAt (λ node, match node with
                       | JObj members => JObj (members ++ [(key, value)])
                       | _ => node
                       end) parent <$> doc
  | RemoveProperty parent key =>
      alterAt (λ node, match node with
                       | JObj members => JObj (remove_first key members)
                       | _ => node
                       end) parent <$> doc
  end.

(** [applyEdits(text, edits)].  The edits of [modify] lie inside the
    outermost value or in front of the text, so a text that stopped before
    its closing brackets still does. *)
Definition applyEdits (content : text) (edits : list edit) : text :=
  {| document := foldl applyEdit (document content) edits;
     truncated := truncated content |}.

End jsonc.

(** ** JavaScript operators on parsed values

    For a [key] that is neither an array index nor the name of a property
    of a built-in prototype; the four property names and the server name
    are such keys. *)

(** The property [key] is found on [v] or along its prototype chain. *)
Fixpoint has_property (key : string) (v : value) : bool :=
  match v with
  | VObj own proto =>
      bool_decide (is_Some (own !! key)) ||
      match proto with
      | Some p => has_property key p
      | None => false
      end
  | _ => false
  end.

Fixpoint get_property (key : string) (v : value) : option value :=
  match v with
  | VObj own proto =>
      match own !! key with
      | Some x => Some x
      | None =>
          match proto with
          | Some p => get_property key p
          | None => None
          end
      end
  | _ => None
  end.

(** [key in v]: a [TypeError] unless [v] is an object or an array. *)
Definition js_in (key : string) (v : option value) : result bool :=
  match v with
  | Some (VObj own proto) => Ok (has_property key (VObj own proto))
  | Some (VArr _) => Ok false
  | _ => Throw (ErrorObj "TypeError" "Cannot use 'in' operator to search for a key in a primitive")
  end.

(** [v[key]]; only evaluated behind a successful [key in v]. *)
Definition js_index (v : option value) (key : string) : option value :=
  v ≫= get_property key.

(** [typeof v === 'object'] *)
Definition typeof_object (v : option value) : bool :=
  match v with
  | Some (VObj _ _) | Some (VArr _) | Some VNull => true
  | _ => false
  end.

(** [v !== null] *)
Definition not_null (v : option value) : bool :=
  match v with
  | Some VNull => false
  | _ => true
  end.

(** ** Constants ([constants.ts]) *)

(** [process.env.CODEALIVE_BASE_URL || 'https://app.codealive.ai'] *)
Definition APP_URL (h : host) : string :=
  let baseUrl := env h !! "CODEALIVE_BASE_URL" in
  if truthy baseUrl then or_empty baseUrl else "https://app.codealive.ai".

Definition VERIFY_ENDPOINT (h : host) : string :=
  APP_URL h +:+ "/api/datasources/alive".

Definition MCP_SERVER_NAME : string := "codealive".

Definition SERVICE_NAME : string := "codealive-api-key".

Definition MCP_COMMAND : string := "uvx".

Definition MCP_ARGS : list string := ["codealive-mcp"].

(** ** Helpers of [clients.ts] *)

(** A [Record<string, string>], its keys in the order they were set. *)
Definition buildEnv (h : host) (apiKey : string) : list (string * string) :=
  let env0 := [("CODEALIVE_API_KEY", apiKey)] in
  let baseUrl := env h !! "CODEALIVE_BASE_URL" in
  if truthy baseUrl then env0 ++ [("CODEALIVE_BASE_URL", or_empty baseUrl)]
  else env0.

(** The [for] loop of [findBinary]. *)
Fixpoint first_existing (candidates : list string) : M (option string) :=
  match candidates with
  | [] => mret None
  | c :: rest =>
      present ← existsSync c;
      if (present : bool) then mret (Some c) else first_existing rest
  end.

Definition findBinary (name : string) (candidates : list string)
  : M (option string) :=
  found ← first_existing candidates;
  match found with
  | Some c => mret (Some c)
  | None =>
      try_catch
        (h ← get_host;
         let cmd := if decide (platform h = "win32") then "where" else "which" in
         _ ← execFileSync cmd [name];
         mret (Some name))
        (λ _, mret None)
  end.

Definition findClaudeBinary : M (option string) :=
  h ← get_host;
  let home := homedir h in
  findBinary "claude"
    [ path_join [home; ".claude"; "local"; "claude"];
      path_join [home; ".bun"; "bin"; "claude"];
      path_join [home; ".npm"; "bin"; "claude"];
      path_join [home; ".yarn"; "bin"; "claude"];
      "/usr/local/bin/claude";
      "/opt/homebrew/bin/claude" ].

(** ** The adapters *)

(** The subclasses of [JsonConfigClient]. *)
Inductive json_client : Type :=
  | CursorClient
  | VSCodeClient
  | WindsurfClient
  | ClineClient
  | RooCodeClient
  | ZedClient
  | OpenCodeClient
  | AntigravityClient.

(** The subclasses of [MCPClient]. *)
Inductive client : Type :=
  | ClaudeCodeClient
  | JsonConfig (c : json_client)
  | CodexClient.

(** [MCPServerConfig] values are written with [JSON.stringify]: their
    trees. *)
Definition json_strings (l : list string) : json := JArr (JStr <$> l).
Definition json_record (m : list (string * string)) : json :=
  JObj (prod_map id JStr <$> m).

(** The abstract base [MCPClient]: what a subclass inherits unless it
    overrides it. *)
Module MCPClient.

Definition isServerInstalled : M bool := mret false.

Definition removeServer : M InstallResult := mret (failed "Not implemented").

End MCPClient.

Module JsonConfigClient.

Definition name (c : json_client) : string :=
  match c with
  | CursorClient => "Cursor"
  | VSCodeClient => "VS Code"
  | WindsurfClient => "Windsurf"
  | ClineClient => "Cline"
  | RooCodeClient => "Roo Code"
  | ZedClient => "Zed"
  | OpenCodeClient => "OpenCode"
  | AntigravityClient => "Antigravity"
  end.

Definition getServerPropertyName (c : json_client) : string :=
  match c with
  | CursorClient => "mcpServers"
  | VSCodeClient => "servers"
  | WindsurfClient => "mcpServers"
  | ClineClient => "mcpServers"
  | RooCodeClient => "mcpServers"
  | ZedClient => "context_servers"
  | OpenCodeClient => "mcp"
  | AntigravityClient => "mcpServers"
  end.

Definition getConfigPath (c : json_client) (h : host) : string :=
  let APPDATA := or_empty (env h !! "APPDATA") in
  match c with
  | CursorClient =>
      if decide (platform h = "win32") then
        path_join [APPDATA; "Cursor"; "mcp.json"]
      else if decide (platform h = "linux") then
        path_join [homedir h; ".config"; "cursor"; "mcp.json"]
      else path_join [homedir h; ".cursor"; "mcp.json"]
  | VSCodeClient =>
      if decide (platform h = "darwin") then
        path_join [homedir h; "Library"; "Application Support"; "Code";
                   "User"; "mcp.json"]
      else if decide (platform h = "win32") then
        path_join [APPDATA; "Code"; "User"; "mcp.json"]
      else path_join [homedir h; ".config"; "Code"; "User"; "mcp.json"]
  | WindsurfClient =>
      if decide (platform h = "darwin") then
        path_join [homedir h; ".codeium"; "windsurf"; "mcp_config.json"]
      else if decide (platform h = "win32") then
        path_join [APPDATA; "Codeium"; "windsurf"; "mcp_config.json"]
      else path_join [homedir h; ".config"; "windsurf"; "mcp.json"]
  | ClineClient =>
      let suffix :=
        path_join ["Code"; "User"; "globalStorage"; "saoudrizwan.claude-dev";
                   "settings"; "cline_mcp_settings.json"] in
      if decide (platform h = "darwin") then
        path_join [homedir h; "Library"; "Application Support"; suffix]
      else if decide (platform h = "win32") then path_join [APPDATA; suffix]
      else path_join [homedir h; ".config"; suffix]
  | RooCodeClient =>
      let suffix :=
        path_join ["Code"; "User"; "globalStorage";
                   "rooveterinaryinc.roo-cline"; "settings";
                   "mcp_settings.json"] in
      if decide (platform h = "darwin") then
        path_join [homedir h; "Library"; "Application Support"; suffix]
      else if decide (platform h = "win32") then path_join [APPDATA; suffix]
      else path_join [homedir h; ".config"; suffix]
  | ZedClient =>
      let xdg := env h !! "XDG_CONFIG_HOME" in
      if truthy xdg then path_join [or_empty xdg; "zed"; "settings.json"]
      else path_join [homedir h; ".config"; "zed"; "settings.json"]
  | OpenCodeClient =>
      if decide (platform h = "win32") then
        path_join [APPDATA; "opencode"; "opencode.json"]
      else path_join [homedir h; ".config"; "opencode"; "opencode.json"]
  | AntigravityClient =>
      path_join [homedir h; ".gemini"; "antigravity"; "mcp_config.json"]
  end.

(** The base entry [{ command, args, env }] and the overrides. *)
Definition getServerConfig (c : json_client) (h : host) (apiKey : string)
  : json :=
  match c with
  | VSCodeClient =>
      JObj [ ("type", JStr "stdio");
            ("command", JStr MCP_COMMAND);
            ("args", json_strings MCP_ARGS);
            ("env", json_record (buildEnv h apiKey)) ]
  | ClineClient | RooCodeClient =>
      JObj [ ("command", JStr MCP_COMMAND);
            ("args", json_strings MCP_ARGS);
            ("env", json_record (buildEnv h apiKey));
            ("disabled", JBool false) ]
  | ZedClient =>
      JObj [ ("source", JStr "custom");
            ("command", JStr MCP_COMMAND);
            ("args", json_strings MCP_ARGS);
            ("env", json_record (buildEnv h apiKey)) ]
  | OpenCodeClient =>
      JObj [ ("type", JStr "local");
            ("command", json_strings (MCP_COMMAND :: MCP_ARGS));
            ("enabled", JBool true);
            ("environment", json_record (buildEnv h apiKey)) ]
  | CursorClient | WindsurfClient | AntigravityClient =>
      JObj [ ("command", JStr MCP_COMMAND);
            ("args", json_strings MCP_ARGS);
            ("env", json_record (buildEnv h apiKey)) ]
  end.

Definition isClientSupported (c : json_client) : M bool :=
  h ← get_host;
  match c with
  | ZedClient =>
      if decide (platform h ≠ "darwin" ∧ platform h ≠ "linux") then mret false
      else existsSync (path_dirname (getConfigPath c h))
  | _ =>
      let dir := path_dirname (getConfigPath c h) in
      here ← existsSync dir;
      if (here : bool) then mret true else existsSync (path_dirname dir)
  end.

Definition isServerInstalled (c : json_client) : M bool :=
  try_catch
    (h ← get_host;
     let configPath := getConfigPath c h in
     present ← existsSync configPath;
     if negb present then mret false else
     content ← readFile configPath;
     let config := jsonc.parse content in
     let prop := getServerPropertyName c in
     has_prop ← lift (js_in prop config);
     if negb has_prop then mret false else
     if negb (typeof_object (js_index config prop)) then mret false else
     if negb (not_null (js_index config prop)) then mret false else
     lift (js_in MCP_SERVER_NAME (js_index config prop)))
    (λ _, mret false).

Definition addServer (c : json_client) (apiKey : string) : M InstallResult :=
  try_catch
    (h ← get_host;
     let configPath := getConfigPath c h in
     _ ← mkdir_recursive (path_dirname configPath);
     present ← existsSync configPath;
     content ← (if (present : bool) then readFile configPath else mret empty_text);
     edits ← lift (jsonc.modify content
                     [getServerPropertyName c; MCP_SERVER_NAME]
                     (Some (getServerConfig c h apiKey)));
     _ ← writeFile configPath (jsonc.applyEdits content edits);
     mret succeeded)
    (λ error, mret (failed (error_text error))).

Definition removeServer (c : json_client) : M InstallResult :=
  try_catch
    (h ← get_host;
     let configPath := getConfigPath c h in
     present ← existsSync configPath;
     if negb present then mret (failed "Config not found") else
     content ← readFile configPath;
     edits ← lift (jsonc.modify content
                     [getServerPropertyName c; MCP_SERVER_NAME]
                     None);
     _ ← writeFile configPath (jsonc.applyEdits content edits);
     mret succeeded)
    (λ error, mret (failed (error_text error))).

End JsonConfigClient.

(** ** The per-file layout ([src/clients/])

    The repository also holds the adapters one class per file: each agent's
    class extends the [MCPClient] of [base.ts], which there carries the
    JSON-config logic itself.  The abstract methods of that class are the
    variables of the section, and [getServerConfig], which subclasses
    override, is reached through [this]. *)
Module base.
Section MCPClient.

Variable getConfigPath : host → string.
Variable getServerPropertyName : string.
Variable this_getServerConfig : host → string → json.

Definition getServerConfig (h : host) (apiKey : string) : json :=
  let env0 := [("CODEALIVE_API_KEY", apiKey)] in
  let baseUrl := env h !! "CODEALIVE_BASE_URL" in
  let env1 :=
    if truthy baseUrl then env0 ++ [("CODEALIVE_BASE_URL", or_empty baseUrl)]
    else env0 in
  JObj [ ("command", JStr MCP_COMMAND);
        ("args", json_strings MCP_ARGS);
        ("env", json_record env1) ].

Definition isServerInstalled : M bool :=
  try_catch
    (h ← get_host;
     let configPath := getConfigPath h in
     present ← existsSync configPath;
     if negb present then mret false else
     content ← readFile configPath;
     let config := jsonc.parse content in
     let prop := getServerPropertyName in
     has_prop ← lift (js_in prop config);
     if negb has_prop then mret false else
     if negb (typeof_object (js_index config prop)) then mret false else
     if negb (not_null (js_index config prop)) then mret false else
     lift (js_in MCP_SERVER_NAME (js_index config prop)))
    (λ _, mret false).

Definition addServer (apiKey : string) : M InstallResult :=
  try_catch
    (h ← get_host;
     let configPath := getConfigPath h in
     let configDir := path_dirname configPath in
     _ ← mkdir_recursive configDir;
     present ← existsSync configPath;
     configContent ← (if (present : bool) then readFile configPath else mret empty_text);
     let serverConfig := this_getServerConfig h apiKey in
     edits ← lift (jsonc.modify configContent
                     [getServerPropertyName; MCP_SERVER_NAME]
                     (Some serverConfig));
     let modified := jsonc.applyEdits configContent edits in
     _ ← writeFile configPath modified;
     mret succeeded)
    (λ error, mret (failed (error_text error))).

Definition removeServer : M InstallResult :=
  try_catch
    (h ← get_host;
     let configPath := getConfigPath h in
     present ← existsSync configPath;
     if negb present then mret (failed "Config file not found") else
     content ← readFile configPath;
     edits ← lift (jsonc.modify content
                     [getServerPropertyName; MCP_SERVER_NAME]
                     None);
     let modified := jsonc.applyEdits content edits in
     _ ← writeFile configPath modified;
     mret succeeded)
    (λ error, mret (failed (error_text error))).

End MCPClient.
End base.

(** [cursor.ts] *)
Module cursor.

Definition getConfigPath (h : host) : string :=
  if decide (platform h = "win32") then
    path_join [or_empty (env h !! "APPDATA"); "Cursor"; "mcp.json"]
  else if decide (platform h = "linux") then
    path_join [homedir h; ".config"; "cursor"; "mcp.json"]
  else path_join [homedir h; ".cursor"; "mcp.json"].

Definition getServerPropertyName : string := "mcpServers".

End cursor.

(** [zed.ts] *)
Module zed.

Definition getConfigPath (h : host) : string :=
  let xdg := env h !! "XDG_CONFIG_HOME" in
  if truthy xdg then path_join [or_empty xdg; "zed"; "settings.json"]
  else path_join [homedir h; ".config"; "zed"; "settings.json"].

Definition isClientSupported : M bool :=
  h ← get_host;
  if decide (platform h ≠ "darwin" ∧ platform h ≠ "linux") then mret false
  else existsSync (path_dirname (getConfigPath h)).

End zed.

(** [args.splice(start, 0, ...items)] *)
Definition splice_insert {A : Type} (start : nat) (items args : list A) : list A :=
  take start args ++ items ++ drop start args.

Module ClaudeCode.

Definition name : string := "Claude Code".

Definition getBinary : M (option string) :=
  cached ← get_cachedBinary;
  if truthy cached then mret cached else
  binary ← findClaudeBinary;
  _ ← (if truthy binary then put_cachedBinary binary else mret ());
  mret binary.

Definition isClientSupported : M bool :=
  binary ← getBinary;
  mret (bool_decide (is_Some binary)).

Definition isServerInstalled : M bool :=
  binary ← getBinary;
  if negb (truthy binary) then mret false else
  try_catch
    (output ← execFileSync (or_empty binary) ["mcp"; "list"];
     mret (includes output MCP_SERVER_NAME))
    (λ _, mret false).

Definition add_args (h : host) (apiKey : string) : list string :=
  let args :=
    ["mcp"; "add"; MCP_SERVER_NAME; "-e"; "CODEALIVE_API_KEY=" +:+ apiKey;
     "-s"; "user"; "--"; MCP_COMMAND] ++ MCP_ARGS in
  let baseUrl := env h !! "CODEALIVE_BASE_URL" in
  if truthy baseUrl then
    splice_insert 4 ["-e"; "CODEALIVE_BASE_URL=" +:+ or_empty baseUrl] args
  else args.

Definition addServer (apiKey : string) : M InstallResult :=
  binary ← getBinary;
  if negb (truthy binary) then mret (failed "Claude Code CLI not found") else
  try_catch
    (_ ← try_catch
           (_ ← execFileSync (or_empty binary)
                  ["mcp"; "remove"; "--scope"; "user"; MCP_SERVER_NAME];
            mret ())
           (λ _, mret ());
     h ← get_host;
     _ ← execFileSync (or_empty binary) (add_args h apiKey);
     mret succeeded)
    (λ error, mret (failed (error_text error))).

Definition removeServer : M InstallResult :=
  binary ← getBinary;
  if negb (truthy binary) then mret (failed "Claude Code CLI not found") else
  try_catch
    (_ ← execFileSync (or_empty binary)
           ["mcp"; "remove"; "--scope"; "user"; MCP_SERVER_NAME];
     mret succeeded)
    (λ error, mret (failed (error_text error))).

End ClaudeCode.

Module Codex.

Definition name : string := "Codex".

Definition findCodexBinary : M (option string) :=
  h ← get_host;
  let home := homedir h in
  findBinary "codex"
    [ path_join [home; ".npm"; "bin"; "codex"];
      path_join [home; ".bun"; "bin"; "codex"];
      "/usr/local/bin/codex";
      "/opt/homebrew/bin/codex" ].

Definition isClientSupported : M bool :=
  binary ← findCodexBinary;
  mret (bool_decide (is_Some binary)).

Definition add_args (h : host) (apiKey : string) : list string :=
  let args :=
    ["mcp"; "add"; MCP_SERVER_NAME; "--env"; "CODEALIVE_API_KEY=" +:+ apiKey] in
  let baseUrl := env h !! "CODEALIVE_BASE_URL" in
  let args :=
    if truthy baseUrl then
      args ++ ["--env"; "CODEALIVE_BASE_URL=" +:+ or_empty baseUrl]
    else args in
  args ++ ["--"; MCP_COMMAND] ++ MCP_ARGS.

Definition addServer (apiKey : string) : M InstallResult :=
  binary ← findCodexBinary;
  if negb (truthy binary) then mret (failed "Codex CLI not found") else
  try_catch
    (_ ← try_catch
           (_ ← execFileSync (or_empty binary)
                  ["mcp"; "remove"; MCP_SERVER_NAME];
            mret ())
           (λ _, mret ());
     h ← get_host;
     _ ← execFileSync (or_empty binary) (add_args h apiKey);
     mret succeeded)
    (λ error, mret (failed (error_text error))).

(** [isServerInstalled] and [removeServer] are not overridden. *)
Definition isServerInstalled : M bool := MCPClient.isServerInstalled.
Definition removeServer : M InstallResult := MCPClient.removeServer.

End Codex.

(** *** Method dispatch *)

Definition client_name (c : client) : string :=
  match c with
  | ClaudeCodeClient => ClaudeCode.name
  | JsonConfig j => JsonConfigClient.name j
  | CodexClient => Codex.name
  end.

Definition isClientSupported (c : client) : M bool :=
  match c with
  | ClaudeCodeClient => ClaudeCode.isClientSupported
  | JsonConfig j => JsonConfigClient.isClientSupported j
  | CodexClient => Codex.isClientSupported
  end.

Definition isServerInstalled (c : client) : M bool :=
  match c with
  | ClaudeCodeClient => ClaudeCode.isServerInstalled
  | JsonConfig j => JsonConfigClient.isServerInstalled j
  | CodexClient => Codex.isServerInstalled
  end.

Definition addServer (c : client) (apiKey : string) : M InstallResult :=
  match c with
  | ClaudeCodeClient => ClaudeCode.addServer apiKey
  | JsonConfig j => JsonConfigClient.addServer j apiKey
  | CodexClient => Codex.addServer apiKey
  end.

Definition removeServer (c : client) : M InstallResult :=
  match c with
  | ClaudeCodeClient => ClaudeCode.removeServer
  | JsonConfig j => JsonConfigClient.removeServer j
  | CodexClient => Codex.removeServer
  end.

(** *** Registry *)

Definition getAllClients : list client :=
  [ ClaudeCodeClient;
    JsonConfig CursorClient;
    JsonConfig VSCodeClient;
    JsonConfig WindsurfClient;
    JsonConfig ClineClient;
    JsonConfig RooCodeClient;
    JsonConfig ZedClient;
    JsonConfig OpenCodeClient;
    CodexClient;
    JsonConfig AntigravityClient ].

Fixpoint supported_among (all : list client) : M (list client) :=
  match all with
  | [] => mret []
  | c :: rest =>
      ok ← isClientSupported c;
      supported ← supported_among rest;
      mret (if (ok : bool) then c :: supported else supported)
  end.

(** [getAllClients()] makes the instances anew: the [ClaudeCodeClient]
    that [getSupportedClients] asks remembers no binary. *)
Definition getSupportedClients : M (list client) :=
  _ ← put_cachedBinary None;
  supported_among getAllClients.

(** ** Key verification ([auth.ts]) *)

(** How the [fetch] of the verification endpoint ends: a response with its
    status and what [response.json()] gives (a value, or the error thrown
    for a body that is not JSON), or a rejection (network failure, the
    15-second [AbortSignal.timeout]). *)
Inductive fetch_outcome : Type :=
  | Responded (status : nat) (body : result json)
  | Rejected (e : thrown).

(** [response.ok] *)
Definition response_ok (status : nat) : bool :=
  (200 <=? status)%nat && (status <=? 299)%nat.

Definition verify_failure (error : thrown) : VerifyResult :=
  match error with
  | ErrorObj name _ =>
      if decide (name = "TimeoutError") then
        {| valid := false; message := "Connection timed out.";
           datasourceCount := None |}
      else
        {| valid := false; message := "Cannot connect: " +:+ error_text error;
           datasourceCount := None |}
  | NonError _ =>
      {| valid := false; message := "Cannot connect: " +:+ error_text error;
         datasourceCount := None |}
  end.

(** [fetch url authorization] is the outcome of the GET request to [url]
    with that [Authorization] header. *)
Definition verifyKey (h : host) (fetch : string → string → fetch_outcome)
    (apiKey : string) : VerifyResult :=
  match fetch (VERIFY_ENDPOINT h) ("Bearer " +:+ apiKey) with
  | Rejected error => verify_failure error
  | Responded status body =>
      if negb (response_ok status) then
        if (status =? 401)%nat then
          {| valid := false; message := "API key is invalid or expired.";
             datasourceCount := None |}
        else
          {| valid := false;
             message := "API returned HTTP " +:+ show_nat status +:+ ".";
             datasourceCount := None |}
      else
        match body with
        | Throw error => verify_failure error
        | Ok data =>
            let count := match data with
                         | JArr items => length items
                         | _ => 0
                         end in
            {| valid := true;
               message := "Connected. " +:+ show_nat count +:+ " data source"
                          +:+ (if (count =? 1)%nat then "" else "s")
                          +:+ " available.";
               datasourceCount := Some count |}
        end
  end.

(** ** The credential store ([credentials.ts]) *)

(** [String.prototype.trim], on a text in UTF-8: the white space and line
    terminators of ECMAScript are the six ASCII characters and the
    characters U+00A0, U+1680, U+2000 to U+200A, U+2028, U+2029, U+202F,
    U+205F, U+3000 and U+FEFF. *)
Definition white_space : list (list ascii) :=
  (map ascii_of_nat) <$>
    ([[9]; [10]; [11]; [12]; [13]; [32]; [194; 160]; [225; 154; 128]]
     ++ ((λ n, [226; 128; n]) <$> seq 128 11)
     ++ [[226; 128; 168]; [226; 128; 169]; [226; 128; 175]; [226; 129; 159];
         [227; 128; 128]; [239; 187; 191]])%nat.

(** [l] behind the first of [patterns] it starts with. *)
Fixpoint behind (patterns : list (list ascii)) (l : list ascii)
  : option (list ascii) :=
  match patterns with
  | [] => None
  | p :: rest =>
      if bool_decide (p `prefix_of` l) then Some (drop (length p) l)
      else behind rest l
  end.

Fixpoint strip (patterns : list (list ascii)) (fuel : nat) (l : list ascii)
  : list ascii :=
  match fuel with
  | O => l
  | S fuel' =>
      match behind patterns l with
      | Some rest => strip patterns fuel' rest
      | None => l
      end
  end.

Definition trim (s : string) : string :=
  let l := String.list_ascii_of_string s in
  let front := strip white_space (length l) l in
  String.string_of_list_ascii
    (reverse (strip (reverse <$> white_space) (length front) (reverse front))).

(** A key when [key] is not empty: [if (key) return key]. *)
Definition found_key (key : string) : option string :=
  if decide (key = "") then None else Some key.

(** [readKey()].  [userInfo] is what [os.userInfo().username] gives, or
    the error [os.userInfo()] throws. *)
Definition readKey (userInfo : result string) : M (option string) :=
  h ← get_host;
  let envKey := env h !! "CODEALIVE_API_KEY" in
  if truthy envKey then mret envKey else
  let platform := platform h in
  from_keychain ←
    (if decide (platform = "darwin") then
       try_catch
         (username ← lift userInfo;
          result ← execFileSync "security"
                     ["find-generic-password"; "-a"; username;
                      "-s"; SERVICE_NAME; "-w"];
          mret (found_key (trim result)))
         (λ _, mret None)
     else mret None);
  if truthy from_keychain then mret from_keychain else
  from_secret_tool ←
    (if decide (platform = "linux") then
       try_catch
         (result ← execFileSync "secret-tool" ["lookup"; "service"; SERVICE_NAME];
          mret (found_key (trim result)))
         (λ _, mret None)
     else mret None);
  if truthy from_secret_tool then mret from_secret_tool else
  from_credential_manager ←
    (if decide (platform = "win32") then
       try_catch
         (result ← execFileSync "powershell"
                     ["-Command";
                      "(Get-StoredCredential -Target '" +:+ SERVICE_NAME
                      +:+ "').GetNetworkCredential().Password"];
          mret (found_key (trim result)))
         (λ _, mret None)
     else mret None);
  if truthy from_credential_manager then mret from_credential_manager else
  mret None.

(** [storeKey(apiKey)].  On Linux the key goes to the standard input of
    [secret-tool] ([input: apiKey]), which the record of a run does not
    show. *)
Definition storeKey (userInfo : result string) (apiKey : string) : M bool :=
  h ← get_host;
  let platform := platform h in
  try_catch
    (if decide (platform = "darwin") then
       _ ← try_catch
             (username ← lift userInfo;
              _ ← execFileSync "security"
                    ["delete-generic-password"; "-a"; username; "-s"; SERVICE_NAME];
              mret ())
             (λ _, mret ());
       username ← lift userInfo;
       _ ← execFileSync "security"
             ["add-generic-password"; "-a"; username; "-s"; SERVICE_NAME;
              "-w"; apiKey];
       mret true
     else if decide (platform = "linux") then
       _ ← execFileSync "secret-tool"
             ["store"; "--label=CodeAlive API Key"; "service"; SERVICE_NAME];
       mret true
     else if decide (platform = "win32") then
       _ ← execFileSync "cmdkey"
             ["/generic:" +:+ SERVICE_NAME; "/user:codealive"; "/pass:" +:+ apiKey];
       mret true
     else mret false)
    (λ _, mret false).

Definition getStoreName (h : host) : string :=
  if decide (platform h = "darwin") then "macOS Keychain"
  else if decide (platform h = "linux") then "secret-tool"
  else if decide (platform h = "win32") then "Windows Credential Manager"
  else "credential store".

(** ** The key in CI mode ([auth.ts])

    [ui.log] prints to the terminal; the lines a function prints are
    returned with its result.  [process.exit] ends the program, and nothing
    behind it runs. *)

Inductive ui_line : Type :=
  | LogError (text : string)
  | LogSuccess (text : string).

Inductive ending (A : Type) : Type :=
  | Returns (a : A)
  | Exits (code : nat).
Arguments Returns {A} a.
Arguments Exits {A} code.

Definition ensureStored (userInfo : result string) (apiKey : string)
  : M (list ui_line) :=
  stored ← storeKey userInfo apiKey;
  h ← get_host;
  if (stored : bool) then
    mret [LogSuccess ("Key saved to " +:+ getStoreName h +:+ ".")]
  else mret [].

(** [getApiKeyCi(providedKey)]; [None] is [undefined], the only value that
    [??] replaces. *)
Definition getApiKeyCi (userInfo : result string)
    (fetch : string → string → fetch_outcome) (providedKey : option string)
  : M (list ui_line * ending string) :=
  key ← match providedKey with
        | Some provided => mret (Some provided)
        | None => readKey userInfo
        end;
  if negb (truthy key) then
    mret ([LogError "No API key found. Pass --api-key or set CODEALIVE_API_KEY env var."],
          Exits 1)
  else
    h ← get_host;
    let result := verifyKey h fetch (or_empty key) in
    if negb (valid result) then
      mret ([LogError ("API key verification failed: " +:+ message result)],
            Exits 1)
    else
      saved ← ensureStored userInfo (or_empty key);
      mret (LogSuccess ("Key verified. " +:+ message result) :: saved,
            Returns (or_empty key)).

(** * What the properties speak about

    Observations of a world, and the sample hosts and worlds the
    properties are tried on. *)

Definition unrecognized (h : host) : Prop :=
  platform h ≠ "darwin" ∧ platform h ≠ "linux" ∧ platform h ≠ "win32".

(** The branch an adapter takes on a platform it does not name. *)
Definition fallback_platform (c : json_client) : string :=
  match c with
  | CursorClient => "darwin"
  | _ => "linux"
  end.

Definition freebsd_host : host :=
  {| platform := "freebsd"; env := ∅; homedir := "/home/u" |}.

Definition win32_world_with_zed_directory : world :=
  {| fs := {[ "/home/u/.config/zed" := Dir;
              "/home/u/.config/zed/settings.json" := File (text_of (JObj [])) ]};
     machine := {| platform := "win32"; env := ∅; homedir := "/home/u" |};
     history := [];
     responder := λ _ _, Ok "";
     cachedBinary := None |}.

Definition absent (w : world) (p : string) : Prop := fs w !! p = None.

(** The program [findBinary] asks when no candidate exists. *)
Definition locate_command (w : world) (name : string) : invocation :=
  {| inv_file := if decide (platform (machine w) = "win32") then "where" else "which";
     inv_args := [name] |}.

(** *** Reading a config text *)

(** The members of an object; nothing for any other value. *)
Definition members_of (doc : option json) : list (string * json) :=
  match doc with
  | Some (JObj members) => members
  | _ => []
  end.

(** The values of all the members called [key], in the order of the text. *)
Definition values_named (key : string) (members : list (string * json))
  : list json :=
  snd <$> filter (λ member, member.1 = key) members.

(** [w1] has the files of [w], with their contents; directories may have
    been made. *)
Definition same_files (w w1 : world) : Prop :=
  (∀ p content, fs w1 !! p = Some (File content) ↔ fs w !! p = Some (File content)) ∧
  machine w1 = machine w ∧ history w1 = history w ∧
  responder w1 = responder w ∧ cachedBinary w1 = cachedBinary w.

(** The text of an adapter's config file, and the tree in it. *)
Definition config_text (c : json_client) (w : world) : text :=
  match fs w !! JsonConfigClient.getConfigPath c (machine w) with
  | Some (File content) => content
  | _ => empty_text
  end.

Definition config_document (c : json_client) (w : world) : option json :=
  document (config_text c w).

(** A top-level key of the config, and an entry under the adapter's server
    property: the node the path leads to, as [findNodeAtLocation] finds
    it. *)
Definition top_level (c : json_client) (w : world) (key : string) : option json :=
  config_document c w ≫= λ root, jsonc.findNodeAtLocation root [key].

Definition server_entry (c : json_client) (w : world) (name : string) : option json :=
  config_document c w ≫= λ root,
    jsonc.findNodeAtLocation root [JsonConfigClient.getServerPropertyName c; name].

(** The same for a text that repeats names: every top-level member called
    [key], and every entry called [name] of every member that carries the
    server property's name. *)
Definition all_top_level (c : json_client) (w : world) (key : string) : list json :=
  values_named key (members_of (config_document c w)).

Definition all_server_entries (c : json_client) (w : world) (name : string)
  : list json :=
  servers ← all_top_level c w (JsonConfigClient.getServerPropertyName c);
  values_named name (members_of (Some servers)).

(** What a JavaScript reader of the config gets for a top-level key: the
    property, own or inherited, of the object [parse] builds. *)
Definition top_level_value (c : json_client) (w : world) (key : string)
  : option value :=
  js_index (jsonc.parse (config_text c w)) key.

(** In the object [config], the server property, own or inherited, holds
    an object that has the server's name as a key, own or inherited. *)
Definition installed_in (prop : string) (config : option value) : bool :=
  match config with
  | Some (VObj own proto) =>
      match get_property prop (VObj own proto) with
      | Some (VObj entries inherited) =>
          has_property MCP_SERVER_NAME (VObj entries inherited)
      | _ => false
      end
  | _ => false
  end.

(** The text [content] with [doc] for its document. *)
Definition with_document (content : text) (doc : json) : text :=
  {| document := Some doc; truncated := truncated content |}.

(** *** What the editor does to a document *)

(** [members] with the value [v] under [name]: in place of the value of the
    first member of that name, or as a new last member. *)
Definition upsert (name : string) (v : json) (members : list (string * json))
  : list (string * json) :=
  match jsonc.property_value name members with
  | Some _ => jsonc.alter_first (λ _, v) name members
  | None => members ++ [(name, v)]
  end.

(** The document with [v] at [prop].[name], where the editor accepts the
    document: a text without a value becomes the two nested objects, an
    object without [prop] gets it as its last member, and an object under
    (the first) [prop] gets the entry. *)
Definition with_entry (prop name : string) (v : json) (doc : option json)
  : option json :=
  match doc with
  | None => Some (JObj [(prop, JObj [(name, v)])])
  | Some (JObj root) =>
      match jsonc.property_value prop root with
      | None => Some (JObj (root ++ [(prop, JObj [(name, v)])]))
      | Some (JObj servers) =>
          Some (JObj (jsonc.alter_first (λ _, JObj (upsert name v servers)) prop root))
      | Some _ => None
      end
  | Some _ => None
  end.

(** The document without the first [name] under (the first) [prop], where
    the editor accepts the document: an object with an object under
    [prop]. *)
Definition without_entry (prop name : string) (doc : option json) : option json :=
  match doc with
  | Some (JObj root) =>
      match jsonc.property_value prop root with
      | Some (JObj servers) =>
          Some (JObj (jsonc.alter_first
                        (λ _, JObj (jsonc.remove_first name servers)) prop root))
      | _ => None
      end
  | _ => None
  end.

(** The message of the editor when it refuses a removal below [prop]. *)
Definition removal_error (prop : string) (doc : option json) : string :=
  match doc with
  | Some (JObj root) =>
      match jsonc.property_value prop root with
      | Some node => "Can not add index to parent of type " +:+ jsonc.node_type node
      | None => "Can not delete in empty document"
      end
  | _ => "Can not delete in empty document"
  end.

(** What [writeFile] throws when the directory of [p] is not there. *)
Definition write_error (w : world) (p : string) : option thrown :=
  match fs w !! path_dirname p with
  | Some Dir => None
  | Some (File _) => Some (ErrorObj "Error" "ENOTDIR: not a directory, open")
  | None => Some (ErrorObj "Error" "ENOENT: no such file or directory, open")
  end.

(** *** The command-line programs *)


Definition run_of (file : string) (args : list string) : invocation :=
  {| inv_file := file; inv_args := args |}.


(** The values an argument list hands to [flag], up to the [--] separator:
    each occurrence of the flag takes the argument that follows it. *)
Fixpoint flag_values (flag : string) (args : list string) : list string :=
  match args with
  | [] => []
  | a :: rest =>
      if decide (a = "--") then []
      else if decide (a = flag) then
        match rest with
        | value :: rest' => value :: flag_values flag rest'
        | [] => []
        end
      else flag_values flag rest
  end.

(** The environment map of a generated entry: [environment] for OpenCode,
    [env] for the others. *)
Definition entry_environment (c : json_client) (entry : json) : option json :=
  jsonc.findNodeAtLocation entry
    [match c with OpenCodeClient => "environment" | _ => "env" end].

(** *** Sample hosts and worlds *)

Definition linux_host : host :=
  {| platform := "linux"; env := ∅; homedir := "/home/u" |}.

Definition self_hosted : host :=
  {| platform := "linux";
     env := {[ "CODEALIVE_BASE_URL" := "https://self-hosted.example.com" ]};
     homedir := "/home/u" |}.

Definition world_of (h : host) (files : gmap string fsnode)
    (programs : list invocation → invocation → result string) : world :=
  {| fs := files; machine := h; history := []; responder := programs;
     cachedBinary := None |}.

(** An endpoint that ends every exchange the same way. *)
Definition answering (outcome : fetch_outcome) : string → string → fetch_outcome :=
  λ _ _, outcome.

(** No external program runs. *)
Definition no_program : list invocation → invocation → result string :=
  λ _ _, Throw (ErrorObj "Error" "not found").

(** Every external program exits normally and prints the server name. *)
Definition obliging : list invocation → invocation → result string :=
  λ _ _, Ok "codealive: uvx codealive-mcp".

(** Every external program exits normally and prints nothing. *)
Definition silent : list invocation → invocation → result string :=
  λ _ _, Ok "".

Definition bare_world : world := world_of linux_host ∅ no_program.

Definition cli_world : world := world_of linux_host ∅ obliging.

Definition silent_cli_world : world := world_of linux_host ∅ silent.

Definition other_server : json :=
  JObj [("command", JStr "node"); ("args", json_strings ["server.js"])].

Definition codealive_server : json :=
  JObj [("command", JStr "uvx"); ("args", json_strings ["codealive-mcp"])].

Definition cursor_servers : list (string * json) :=
  [("codealive", codealive_server); ("other", other_server)].

Definition cursor_root : list (string * json) :=
  [("mcpServers", JObj cursor_servers); ("theme", JStr "dark")].

Definition cursor_files (content : text) : gmap string fsnode :=
  {[ "/home/u/.config/cursor" := Dir;
     "/home/u/.config/cursor/mcp.json" := File content ]}.

(** Cursor's config on Linux, with the integration and another server. *)
Definition cursor_world : world :=
  world_of linux_host (cursor_files (text_of (JObj cursor_root))) no_program.

(** The same file with no server object in it. *)
Definition cursor_world_without_servers : world :=
  world_of linux_host (cursor_files (text_of (JObj [("theme", JStr "dark")])))
    no_program.

(** A text that stops in the middle,
    [{"mcpServers": {"codealive": {"command": "uvx"], from which the parser
    recovers the three objects. *)
Definition truncated_config : text :=
  {| document :=
       Some (JObj [("mcpServers",
                    JObj [("codealive", JObj [("command", JStr "uvx")])])]);
     truncated := true |}.

Definition cursor_world_truncated : world :=
  world_of linux_host (cursor_files truncated_config) no_program.



(** [{"mcpServers": {}, "mcpServers": {}}]: the editor works on the first
    member, and [parse] keeps the last. *)
Definition repeated_config : text :=
  text_of (JObj [("mcpServers", JObj []); ("mcpServers", JObj [])]).

Definition cursor_world_repeated : world :=
  world_of linux_host (cursor_files repeated_config) no_program.

(** A [claude] binary on disk. *)
Definition claude_on_disk : world :=
  world_of linux_host {[ "/usr/local/bin/claude" := File empty_text ]} no_program.



(** [w0] is [w] with some directories made where nothing was. *)
Definition dirs_made (w w0 : world) : Prop :=
  (∀ p, fs w0 !! p = fs w !! p ∨ (fs w !! p = None ∧ fs w0 !! p = Some Dir)) ∧
  machine w0 = machine w ∧ history w0 = history w ∧
  responder w0 = responder w ∧ cachedBinary w0 = cachedBinary w.

Definition claude_candidates (h : host) : list string :=
  [ path_join [homedir h; ".claude"; "local"; "claude"];
    path_join [homedir h; ".bun"; "bin"; "claude"];
    path_join [homedir h; ".npm"; "bin"; "claude"];
    path_join [homedir h; ".yarn"; "bin"; "claude"];
    "/usr/local/bin/claude";
    "/opt/homebrew/bin/claude" ].

Definition codex_candidates (h : host) : list string :=
  [ path_join [homedir h; ".npm"; "bin"; "codex"];
    path_join [homedir h; ".bun"; "bin"; "codex"];
    "/usr/local/bin/codex";
    "/opt/homebrew/bin/codex" ].

(** The world after [execFileSync] recorded [i]. *)
Definition after_run (i : invocation) (w : world) : world :=
  set_history (history w ++ [i]) w.

(** How a run that may fail ends an install. *)
Definition install_result (answer : result string) : InstallResult :=
  match answer with
  | Ok _ => succeeded
  | Throw e => failed (error_text e)
  end.


(** *** The credential store *)

(** The program [readKey] asks on the host, when there is one to ask. *)
Definition lookup_command (h : host) (userInfo : result string)
  : option invocation :=
  if decide (platform h = "darwin") then
    match userInfo with
    | Ok username =>
        Some (run_of "security"
                ["find-generic-password"; "-a"; username; "-s";
                 "codealive-api-key"; "-w"])
    | Throw _ => None
    end
  else if decide (platform h = "linux") then
    Some (run_of "secret-tool" ["lookup"; "service"; "codealive-api-key"])
  else if decide (platform h = "win32") then
    Some (run_of "powershell"
            ["-Command";
             "(Get-StoredCredential -Target 'codealive-api-key').GetNetworkCredential().Password"])
  else None.

(** The program exits normally. *)
Definition exits_normally (answer : result string) : bool :=
  match answer with
  | Ok _ => true
  | Throw _ => false
  end.

(** A Linux host and a macOS host with a key in the environment, and
    stores that answer with a key behind white space, or not at all. *)
Definition with_env_key (h : host) : host :=
  {| platform := platform h;
     env := <["CODEALIVE_API_KEY" := "env-key"]> (env h);
     homedir := homedir h |}.

Definition keyring : list invocation → invocation → result string :=
  λ _ _, Ok (String "010" " stored-key " +:+ String "010" "").

Definition blank_keyring : list invocation → invocation → result string :=
  λ _ _, Ok (" " +:+ String "010" "").

Definition darwin_host : host :=
  {| platform := "darwin"; env := ∅; homedir := "/Users/u" |}.

(** On macOS: there is nothing to delete, and adding works. *)
Definition fresh_keychain : list invocation → invocation → result string :=
  λ _ i, match inv_args i with
         | "delete-generic-password" :: _ =>
             Throw (ErrorObj "Error" "The specified item could not be found")
         | _ => Ok ""
         end.

(** *** More sample worlds *)


(** Cursor and VS Code side by side, both without the integration. *)
Definition two_agents : world :=
  world_of linux_host
    {[ "/home/u/.config/cursor" := Dir;
       "/home/u/.config/cursor/mcp.json" := File (text_of (JObj []));
       "/home/u/.config/Code" := Dir;
       "/home/u/.config/Code/User" := Dir;
       "/home/u/.config/Code/User/mcp.json"
         := File (text_of (JObj [("servers", JObj [])])) ]}
    no_program.

(** A [claude] on disk that fails to remove and accepts everything else. *)
Definition removal_fails : list invocation → invocation → result string :=
  λ _ i, match inv_args i with
         | "mcp" :: "remove" :: _ =>
             Throw (ErrorObj "Error" "No MCP server found with name: codealive")
         | _ => Ok ""
         end.

Definition claude_on_disk_removal_fails : world :=
  world_of linux_host {[ "/usr/local/bin/claude" := File empty_text ]} removal_fails.

(** ** Monadic steps *)

Ltac run :=
  unfold mbind, M_bind, mret, M_ret, try_catch, lift, get_host, existsSync,
    get_cachedBinary, put_cachedBinary, throw in *.

(** * Properties *)

(** ** Strings *)

Lemma append_cons (x : ascii) (a b : string) :
  String x a +:+ b = String x (a +:+ b).
Proof. reflexivity. Qed.

Lemma append_assoc (a b c : string) : (a +:+ b) +:+ c = a +:+ b +:+ c.
Proof.
  induction a as [|x a IH]; [done |]. rewrite !append_cons. by f_equal.
Qed.

Lemma prefix_append (s t : string) : String.prefix s (s +:+ t) = true.
Proof.
  induction s as [|x s IH]; [by destruct t |]. rewrite append_cons. simpl.
  destruct (Ascii.ascii_dec x x); [exact IH | done].
Qed.

Lemma includes_here (s t : string) : includes (s +:+ t) s = true.
Proof.
  destruct s as [|x s]; [by destruct t |].
  rewrite append_cons. cbn [includes]. rewrite <- append_cons.
  by rewrite prefix_append.
Qed.

Lemma includes_later (p t s : string) :
  includes t s = true → includes (p +:+ t) s = true.
Proof.
  intros Ht. induction p as [|x p IH]; [exact Ht |].
  rewrite append_cons. cbn [includes]. rewrite IH. apply orb_true_r.
Qed.

Lemma includes_between (p s t : string) : includes (p +:+ s +:+ t) s = true.
Proof. apply includes_later, includes_here. Qed.

(** ** Key verification *)

(** C3. What [verifyKey] answers, case by case: a 200 with a list of [n]
    elements is valid, counts [n] and says "n data sources" (for one element
    "1 data source", without the plural); a 200 with a JSON value that is
    not a list is valid with count 0; a 401 is not valid and says "invalid or
    expired"; any other status outside 200..299 is not valid and the message
    has the status in it; a thrown error named TimeoutError gives "timed
    out"; anything else thrown gives "Cannot connect". *)
Theorem verifyKey_outcomes (h : host) (fetch : string → string → fetch_outcome)
    (apiKey : string) :
  let answer := fetch (VERIFY_ENDPOINT h) ("Bearer " +:+ apiKey) in
  let r := verifyKey h fetch apiKey in
  (∀ items, answer = Responded 200 (Ok (JArr items)) →
     valid r = true ∧ datasourceCount r = Some (length items) ∧
     (length items ≠ 1 →
        includes (message r) (show_nat (length items) +:+ " data sources") = true) ∧
     (length items = 1 →
        includes (message r) "1 data source" = true ∧
        includes (message r) "1 data sources" = false)) ∧
  (∀ data, answer = Responded 200 (Ok data) → (∀ items, data ≠ JArr items) →
     valid r = true ∧ datasourceCount r = Some 0) ∧
  (∀ body, answer = Responded 401 body →
     valid r = false ∧ includes (message r) "invalid or expired" = true) ∧
  (∀ status body, answer = Responded status body →
     status < 200 ∨ 299 < status → status ≠ 401 →
     valid r = false ∧ includes (message r) (show_nat status) = true) ∧
  (∀ msg, answer = Rejected (ErrorObj "TimeoutError" msg) →
     valid r = false ∧ includes (message r) "timed out" = true) ∧
  (∀ e, answer = Rejected e → (∀ msg, e ≠ ErrorObj "TimeoutError" msg) →
     valid r = false ∧ includes (message r) "Cannot connect" = true).
Proof.
  intros answer r. subst answer r. unfold verifyKey.
  assert (∀ status, status < 200 ∨ 299 < status → response_ok status = false)
    as Hnot_ok.
  { intros status Hs. unfold response_ok. apply andb_false_iff.
    destruct Hs; [left | right]; apply Nat.leb_gt; lia. }
  split; [| split; [| split; [| split; [| split]]]].
  - intros items ->. cbn [response_ok negb andb Nat.leb valid datasourceCount].
    split; [done |]. split; [done |]. split.
    + intros Hn. simpl negb. cbn iota.
      destruct (Nat.eqb_spec (length items) 1) as [|_]; [done |].
      cbn [message].
      replace (show_nat (length items) +:+ " data source" +:+ "s" +:+ " available.")
        with ((show_nat (length items) +:+ " data sources") +:+ " available.")
        by (by rewrite append_assoc).
      apply includes_later, includes_here.
    + intros Hone. simpl. by rewrite Hone.
  - intros data -> Hdata. simpl.
    destruct data as [| | | |items|]; try done. by destruct (Hdata items).
  - by intros body ->.
  - intros status body -> Hstatus Hne. rewrite (Hnot_ok status Hstatus). simpl.
    destruct (Nat.eqb_spec status 401); [done |]. cbn [valid message].
    split; [done |]. apply includes_between.
  - by intros msg ->.
  - intros e -> He. unfold verify_failure.
    destruct e as [name msg|s]; [| done].
    case_decide as Hname; [| done]. subst name. by destruct (He msg).
Qed.

(** A 2xx response whose body is not JSON: [response.json()] throws, and the
    answer is the one for a thrown error. *)
Remark verifyKey_body_not_json (h : host)
    (fetch : string → string → fetch_outcome) (apiKey : string) (status : nat)
    (e : thrown) :
  fetch (VERIFY_ENDPOINT h) ("Bearer " +:+ apiKey) = Responded status (Throw e) →
  response_ok status = true →
  verifyKey h fetch apiKey = verify_failure e.
Proof. intros Hfetch Hok. unfold verifyKey. by rewrite Hfetch, Hok. Qed.

(** The cases of [verifyKey_outcomes] on the exchanges of the test suite:
    three data sources, one, an object body, 401, 500, a timeout and a
    refused connection. *)
Lemma verifyKey_outcomes_witness :
  (valid (verifyKey linux_host
            (answering (Responded 200 (Ok (JArr [JNull; JNull; JNull])))) "good-key")
   = true ∧
   datasourceCount
     (verifyKey linux_host
        (answering (Responded 200 (Ok (JArr [JNull; JNull; JNull])))) "good-key")
   = Some 3 ∧
   includes
     (message (verifyKey linux_host
                 (answering (Responded 200 (Ok (JArr [JNull; JNull; JNull]))))
                 "good-key"))
     "3 data sources" = true) ∧
  (includes
     (message (verifyKey linux_host
                 (answering (Responded 200 (Ok (JArr [JNull])))) "key"))
     "1 data source" = true ∧
   includes
     (message (verifyKey linux_host
                 (answering (Responded 200 (Ok (JArr [JNull])))) "key"))
     "1 data sources" = false) ∧
  (valid (verifyKey linux_host
            (answering (Responded 200 (Ok (JObj [("status", JStr "ok")])))) "key")
   = true ∧
   datasourceCount
     (verifyKey linux_host
        (answering (Responded 200 (Ok (JObj [("status", JStr "ok")])))) "key")
   = Some 0) ∧
  (valid (verifyKey linux_host (answering (Responded 401 (Ok JNull))) "bad-key")
   = false ∧
   includes
     (message (verifyKey linux_host (answering (Responded 401 (Ok JNull))) "bad-key"))
     "invalid or expired" = true) ∧
  (valid (verifyKey linux_host (answering (Responded 500 (Ok JNull))) "key")
   = false ∧
   includes
     (message (verifyKey linux_host (answering (Responded 500 (Ok JNull))) "key"))
     "HTTP 500" = true) ∧
  (valid (verifyKey linux_host
            (answering (Rejected (ErrorObj "TimeoutError" "timeout"))) "key")
   = false ∧
   includes
     (message (verifyKey linux_host
                 (answering (Rejected (ErrorObj "TimeoutError" "timeout"))) "key"))
     "timed out" = true) ∧
  (valid (verifyKey linux_host
            (answering (Rejected (ErrorObj "Error" "ECONNREFUSED"))) "key")
   = false ∧
   includes
     (message (verifyKey linux_host
                 (answering (Rejected (ErrorObj "Error" "ECONNREFUSED"))) "key"))
     "Cannot connect" = true).
Proof.
  pose proof (λ outcome key, verifyKey_outcomes linux_host (answering outcome) key)
    as Hcases.
  cbv zeta in Hcases.
  destruct (Hcases (Responded 200 (Ok (JArr [JNull; JNull; JNull]))) "good-key")
    as (H3 & _).
  destruct (Hcases (Responded 200 (Ok (JArr [JNull]))) "key") as (H1 & _).
  destruct (Hcases (Responded 200 (Ok (JObj [("status", JStr "ok")]))) "key")
    as (_ & Hobj & _).
  destruct (Hcases (Responded 401 (Ok JNull)) "bad-key") as (_ & _ & H401 & _).
  destruct (Hcases (Responded 500 (Ok JNull)) "key") as (_ & _ & _ & H500 & _).
  destruct (Hcases (Rejected (ErrorObj "TimeoutError" "timeout")) "key")
    as (_ & _ & _ & _ & Htime & _).
  destruct (Hcases (Rejected (ErrorObj "Error" "ECONNREFUSED")) "key")
    as (_ & _ & _ & _ & _ & Hconn).
  destruct (H3 _ eq_refl) as (Hv & Hc & Hplural & _).
  destruct (H1 _ eq_refl) as (_ & _ & _ & Hsingular).
  split; [| split; [| split; [| split; [| split; [| split]]]]].
  - split; [exact Hv |]. split; [exact Hc |]. apply Hplural. simpl. lia.
  - apply Hsingular. reflexivity.
  - apply (Hobj _ eq_refl). intros items. discriminate.
  - apply (H401 _ eq_refl).
  - destruct (H500 _ _ eq_refl) as [Hinvalid _]; [right; lia | lia |].
    split; [exact Hinvalid | reflexivity].
  - apply (Htime _ eq_refl).
  - apply (Hconn _ eq_refl). intros msg. discriminate.
Defined.

(** ** Config paths and platforms *)

(** C6, as stated, fails for Cursor: on FreeBSD its path is the one of the
    darwin branch (the dot-directory in the home), not the one of the linux
    branch under [.config]. *)
Lemma getConfigPath_unrecognized_counterexample :
  unrecognized freebsd_host ∧
  JsonConfigClient.getConfigPath CursorClient freebsd_host
    = "/home/u/.cursor/mcp.json" ∧
  JsonConfigClient.getConfigPath CursorClient (set_platform "linux" freebsd_host)
    = "/home/u/.config/cursor/mcp.json" ∧
  ¬ (∀ (c : json_client) (h : host), unrecognized h →
       JsonConfigClient.getConfigPath c h
       = JsonConfigClient.getConfigPath c (set_platform "linux" h)).
Proof.
  split; [by repeat split |]. split; [reflexivity |]. split; [reflexivity |].
  intros Hall.
  specialize (Hall CursorClient freebsd_host ltac:(by repeat split)).
  vm_compute in Hall. discriminate Hall.
Qed.

(** C6, amended. On a platform that is none of darwin, linux and win32,
    [getConfigPath] gives, for every JSON-config adapter but Cursor, the same
    path as on linux; for Cursor it gives the same path as on darwin. *)
Theorem getConfigPath_unrecognized (c : json_client) (h : host) :
  unrecognized h →
  JsonConfigClient.getConfigPath c h
  = JsonConfigClient.getConfigPath c (set_platform (fallback_platform c) h).
Proof.
  intros (Hd & Hl & Hw).
  destruct c; unfold JsonConfigClient.getConfigPath; simpl;
    repeat case_decide; done.
Qed.

Lemma getConfigPath_unrecognized_witness :
  unrecognized freebsd_host ∧
  JsonConfigClient.getConfigPath VSCodeClient freebsd_host
  = JsonConfigClient.getConfigPath VSCodeClient (set_platform "linux" freebsd_host).
Proof.
  assert (unrecognized freebsd_host) as Hu by (by repeat split).
  split; [exact Hu |].
  exact (getConfigPath_unrecognized VSCodeClient freebsd_host Hu).
Defined.

(** C7. On win32 the Zed adapter is not supported, whatever the file system
    holds, and it does not look at the file system to say so. *)
Theorem Zed_isClientSupported_win32 (w : world) :
  platform (machine w) = "win32" →
  isClientSupported (JsonConfig ZedClient) w = (Ok false, w).
Proof.
  intros Hw. unfold isClientSupported, JsonConfigClient.isClientSupported. run.
  rewrite Hw. by case_decide as Hp; [| destruct Hp].
Qed.

Lemma Zed_isClientSupported_win32_witness :
  fs win32_world_with_zed_directory
    !! path_dirname (JsonConfigClient.getConfigPath ZedClient
                       (machine win32_world_with_zed_directory)) = Some Dir ∧
  isClientSupported (JsonConfig ZedClient) win32_world_with_zed_directory
  = (Ok false, win32_world_with_zed_directory).
Proof.
  split; [vm_compute; reflexivity |].
  apply (Zed_isClientSupported_win32 win32_world_with_zed_directory).
  reflexivity.
Defined.

(** C9. Codex inherits [isServerInstalled] and [removeServer] from the
    abstract base: the first answers false and the second fails with "Not
    implemented", in every world, and neither runs a program nor touches
    anything. *)
Theorem Codex_inherited_defaults (w : world) :
  isServerInstalled CodexClient = MCPClient.isServerInstalled ∧
  removeServer CodexClient = MCPClient.removeServer ∧
  isServerInstalled CodexClient w = (Ok false, w) ∧
  removeServer CodexClient w
  = (Ok {| success := false; error := Some "Not implemented" |}, w).
Proof. by repeat split. Qed.

(** ** Looking for a binary *)

Lemma existsSync_absent (w : world) (p : string) :
  absent w p → existsSync p w = (Ok false, w).
Proof.
  unfold absent, existsSync. intros ->.
  rewrite bool_decide_eq_false_2; [done |]. by intros [? ?].
Qed.

Lemma existsSync_present (w : world) (p : string) :
  is_Some (fs w !! p) → existsSync p w = (Ok true, w).
Proof. intros H. unfold existsSync. by rewrite bool_decide_eq_true_2. Qed.

Lemma first_existing_none (w : world) (candidates : list string) :
  Forall (absent w) candidates → first_existing candidates w = (Ok None, w).
Proof.
  induction 1 as [|c rest Hc _ IH]; [done |].
  cbn [first_existing]. unfold mbind, M_bind.
  by rewrite existsSync_absent.
Qed.

Lemma first_existing_found (w : world) (before after : list string) (c : string) :
  Forall (absent w) before → is_Some (fs w !! c) →
  first_existing (before ++ c :: after) w = (Ok (Some c), w).
Proof.
  intros Hb Hc. induction Hb as [|b rest Hb _ IH]; simpl.
  - unfold mbind, M_bind. by rewrite existsSync_present.
  - unfold mbind, M_bind. by rewrite existsSync_absent.
Qed.

Lemma first_existing_total (w : world) (candidates : list string) :
  ∃ r, first_existing candidates w = (Ok r, w) ∧
       (r = None ↔ Forall (absent w) candidates).
Proof.
  induction candidates as [|c rest (r & Hr & Hnone)]; [by exists None |].
  cbn [first_existing]. unfold mbind, M_bind.
  destruct (fs w !! c) as [node|] eqn:Hc.
  - rewrite existsSync_present; [| by rewrite Hc]. exists (Some c).
    split; [done |]. split; [done |].
    intros Hall. apply Forall_cons in Hall as [Habs _].
    unfold absent in Habs. congruence.
  - rewrite existsSync_absent; [| done]. exists r. split; [done |].
    rewrite Hnone. split; [by constructor | by intros [_ ?]%Forall_cons].
Qed.

(** C10. [findBinary] gives the first candidate that exists, without
    running anything; when no candidate exists and the locate command
    ([where] on win32, [which] elsewhere) succeeds, it gives [name] itself,
    whatever the command printed; and it gives null exactly when no
    candidate exists and the locate command fails. *)
Theorem findBinary_result (name : string) (candidates : list string) (w : world) :
  (∀ before c after,
     candidates = before ++ c :: after →
     Forall (absent w) before → is_Some (fs w !! c) →
     findBinary name candidates w = (Ok (Some c), w)) ∧
  (∀ printed,
     Forall (absent w) candidates →
     responder w (history w) (locate_command w name) = Ok printed →
     fst (findBinary name candidates w) = Ok (Some name)) ∧
  (fst (findBinary name candidates w) = Ok None ↔
     Forall (absent w) candidates ∧
     ∃ e, responder w (history w) (locate_command w name) = Throw e).
Proof.
  split; [| split].
  - intros before c after -> Hb Hc. unfold findBinary, mbind, M_bind.
    by rewrite first_existing_found.
  - intros printed Hall Hloc. unfold findBinary, mbind, M_bind.
    rewrite first_existing_none; [| done].
    unfold try_catch, get_host, execFileSync, mret, M_ret.
    unfold locate_command in Hloc. by rewrite Hloc.
  - unfold findBinary, mbind, M_bind.
    destruct (first_existing_total w candidates) as (r & -> & Hnone).
    destruct r as [c|].
    + split; [done |]. intros [Hall _]. by apply Hnone in Hall.
    + unfold try_catch, get_host, execFileSync, mret, M_ret.
      fold (locate_command w name).
      destruct (responder w (history w) (locate_command w name)) as [out|e].
      * split; [done |]. by intros [_ [e ?]].
      * split; [| done]. intros _. split; [by apply Hnone | by exists e].
Qed.

(** ** The editor: what [modify] and [applyEdits] do to a document *)

Section members.

Implicit Types (members more : list (string * json)) (key name : string).

Lemma property_value_app members more key :
  jsonc.property_value key (members ++ more)
  = match jsonc.property_value key members with
    | Some v => Some v
    | None => jsonc.property_value key more
    end.
Proof.
  induction members as [|[k v] rest IH]; [done |].
  cbn [app jsonc.property_value]. by destruct (decide (k = key)).
Qed.

Lemma property_value_alter_first (f : json → json) members key name :
  jsonc.property_value name (jsonc.alter_first f key members)
  = if decide (name = key) then f <$> jsonc.property_value key members
    else jsonc.property_value name members.
Proof.
  induction members as [|[k v] rest IH]; [by destruct (decide _) |].
  cbn [jsonc.alter_first jsonc.property_value].
  destruct (decide (k = key)) as [->|Hk]; cbn [jsonc.property_value].
  - destruct (decide (key = name)) as [->|Hn].
    + by rewrite decide_True.
    + by rewrite decide_False by congruence.
  - destruct (decide (k = name)) as [->|Hn]; [| exact IH].
    by rewrite decide_False by congruence.
Qed.

Lemma property_value_remove_first members key name :
  name ≠ key →
  jsonc.property_value name (jsonc.remove_first key members)
  = jsonc.property_value name members.
Proof.
  intros Hne. induction members as [|[k v] rest IH]; [done |].
  cbn [jsonc.remove_first jsonc.property_value].
  destruct (decide (k = key)) as [->|Hk]; cbn [jsonc.property_value].
  - by rewrite decide_False by congruence.
  - by destruct (decide (k = name)).
Qed.

(** Altering the first member with the value it has changes nothing. *)
Lemma alter_first_same (f : json → json) members key (v : json) :
  jsonc.property_value key members = Some v → f v = v →
  jsonc.alter_first f key members = members.
Proof.
  intros Hv Hf. induction members as [|[k x] rest IH]; [done |].
  cbn [jsonc.alter_first jsonc.property_value] in *.
  destruct (decide (k = key)) as [->|Hk].
  - injection Hv as ->. by rewrite Hf.
  - by rewrite IH.
Qed.

Lemma alter_first_ext (f g : json → json) members key (v : json) :
  jsonc.property_value key members = Some v → f v = g v →
  jsonc.alter_first f key members = jsonc.alter_first g key members.
Proof.
  intros Hv Hf. induction members as [|[k x] rest IH]; [done |].
  cbn [jsonc.alter_first jsonc.property_value] in *.
  destruct (decide (k = key)) as [->|Hk].
  - injection Hv as ->. by rewrite Hf.
  - by rewrite IH.
Qed.

Lemma remove_first_absent members key :
  jsonc.property_value key members = None →
  jsonc.remove_first key members = members.
Proof.
  induction members as [|[k x] rest IH]; [done |].
  cbn [jsonc.remove_first jsonc.property_value].
  destruct (decide (k = key)); [done |]. intros H. by rewrite IH.
Qed.


Lemma values_named_cons key name (v : json) members :
  values_named key ((name, v) :: members)
  = if decide (name = key) then v :: values_named key members
    else values_named key members.
Proof.
  unfold values_named. rewrite filter_cons. cbn [fst].
  by destruct (decide (name = key)).
Qed.

Lemma values_named_app key members more :
  values_named key (members ++ more)
  = values_named key members ++ values_named key more.
Proof. unfold values_named. by rewrite filter_app, fmap_app. Qed.

(** The first member of a name is the first of all the members of that
    name. *)
Lemma property_value_head key members :
  jsonc.property_value key members = head (values_named key members).
Proof.
  induction members as [|[k v] rest IH]; [done |].
  rewrite values_named_cons. cbn [jsonc.property_value].
  by destruct (decide (k = key)).
Qed.

Lemma values_named_alter_first (f : json → json) members key name :
  values_named name (jsonc.alter_first f key members)
  = if decide (name = key) then
      match values_named key members with
      | [] => []
      | v :: rest => f v :: rest
      end
    else values_named name members.
Proof.
  induction members as [|[k v] rest IH]; [by destruct (decide _) |].
  cbn [jsonc.alter_first]. destruct (decide (k = key)) as [->|Hk].
  - rewrite !values_named_cons. destruct (decide (name = key)) as [->|Hn].
    + by rewrite !decide_True.
    + by rewrite !decide_False by congruence.
  - rewrite !values_named_cons, IH. destruct (decide (name = key)) as [->|Hn].
    + by rewrite !decide_False by congruence.
    + done.
Qed.

Lemma values_named_remove_first members key name :
  name ≠ key →
  values_named name (jsonc.remove_first key members) = values_named name members.
Proof.
  intros Hne. induction members as [|[k v] rest IH]; [done |].
  cbn [jsonc.remove_first]. destruct (decide (k = key)) as [->|Hk].
  - rewrite values_named_cons. by rewrite decide_False by congruence.
  - by rewrite !values_named_cons, IH.
Qed.

Lemma values_named_upsert members key name (v : json) :
  name ≠ key →
  values_named name (upsert key v members) = values_named name members.
Proof.
  intros Hne. unfold upsert. destruct (jsonc.property_value key members).
  - rewrite values_named_alter_first. by rewrite decide_False.
  - rewrite values_named_app, values_named_cons, decide_False by congruence.
    by rewrite app_nil_r.
Qed.

Lemma property_value_upsert members key name (v : json) :
  jsonc.property_value name (upsert key v members)
  = if decide (name = key) then Some v else jsonc.property_value name members.
Proof.
  unfold upsert. destruct (jsonc.property_value key members) as [x|] eqn:Hx.
  - rewrite property_value_alter_first. destruct (decide (name = key)); [| done].
    by rewrite Hx.
  - rewrite property_value_app. cbn [jsonc.property_value].
    destruct (decide (name = key)) as [->|Hne].
    + by rewrite Hx, decide_True.
    + rewrite decide_False by congruence.
      by destruct (jsonc.property_value name members).
Qed.

End members.

(** [modify] with a value: the edits it returns make [with_entry] of the
    document, and it throws exactly where [with_entry] has no answer. *)
Lemma modify_set (content : text) (prop name : string) (v : json) :
  match jsonc.modify content [prop; name] (Some v) with
  | Ok edits =>
      is_Some (with_entry prop name v (document content)) ∧
      document (jsonc.applyEdits content edits)
      = with_entry prop name v (document content)
  | Throw _ => with_entry prop name v (document content) = None
  end.
Proof.
  unfold jsonc.modify, jsonc.applyEdits, with_entry. cbn [document rev app].
  destruct (document content) as [root|]; cbn [jsonc.find_parent mbind option_bind rev app].
  2: { cbn. by split. }
  destruct root as [| | | | |rootm]; cbn [jsonc.findNodeAtLocation]; try done.
  cbn [mbind option_bind].
  destruct (jsonc.property_value prop rootm) as [node|] eqn:Hprop;
    cbn [mbind option_bind jsonc.findNodeAtLocation].
  - destruct node as [| | | | |servers]; try done.
    destruct (jsonc.property_value name servers) as [x|] eqn:Hname;
      cbn [foldl jsonc.applyEdit fmap option_fmap option_map jsonc.alterAt app].
    + split; [done |]. do 2 f_equal.
      apply (alter_first_ext _ _ _ _ _ Hprop). unfold upsert. by rewrite Hname.
    + split; [done |]. do 2 f_equal.
      apply (alter_first_ext _ _ _ _ _ Hprop). unfold upsert. by rewrite Hname.
  - rewrite Hprop.
    cbn [foldl jsonc.applyEdit fmap option_fmap option_map jsonc.alterAt].
    by split.
Qed.

(** [modify] without a value: the edits it returns make [without_entry] of
    the document, and it throws, with [removal_error], exactly where
    [without_entry] has no answer. *)
Lemma modify_remove (content : text) (prop name : string) :
  match jsonc.modify content [prop; name] None with
  | Ok edits =>
      is_Some (without_entry prop name (document content)) ∧
      document (jsonc.applyEdits content edits)
      = without_entry prop name (document content)
  | Throw e =>
      without_entry prop name (document content) = None ∧
      e = ErrorObj "Error" (removal_error prop (document content))
  end.
Proof.
  unfold jsonc.modify, jsonc.applyEdits, without_entry, removal_error.
  cbn [document rev app].
  destruct (document content) as [root|]; cbn [jsonc.find_parent mbind option_bind rev app].
  2: { by split. }
  destruct root as [| | | | |rootm]; cbn [jsonc.findNodeAtLocation]; try done.
  cbn [mbind option_bind].
  destruct (jsonc.property_value prop rootm) as [node|] eqn:Hprop;
    cbn [mbind option_bind jsonc.findNodeAtLocation]; [| done].
  destruct node as [| | | | |servers]; try done.
  destruct (jsonc.property_value name servers) as [x|] eqn:Hname;
    cbn [foldl jsonc.applyEdit fmap option_fmap option_map jsonc.alterAt app].
  - split; [done |]. do 2 f_equal. by apply (alter_first_ext _ _ _ _ _ Hprop).
  - split; [done |]. do 2 f_equal. symmetry.
    apply (alter_first_same _ _ _ _ Hprop). by rewrite remove_first_absent.
Qed.

(** What [with_entry] leaves alone, member by member. *)
Lemma with_entry_frame (prop name : string) (v : json) (doc : option json)
    (d : json) :
  with_entry prop name v doc = Some d →
  (∀ key, key ≠ prop →
     values_named key (members_of (Some d)) = values_named key (members_of doc)) ∧
  (∀ other, other ≠ name →
     (servers ← values_named prop (members_of (Some d));
      values_named other (members_of (Some servers)))
     = (servers ← values_named prop (members_of doc);
        values_named other (members_of (Some servers)))) ∧
  jsonc.findNodeAtLocation d [prop; name] = Some v.
Proof.
  unfold with_entry. destruct doc as [[| | | | |root]|]; try done.
  - destruct (jsonc.property_value prop root) as [node|] eqn:Hprop.
    + destruct node as [| | | | |servers]; try done.
      intros [= <-]. cbn [members_of jsonc.findNodeAtLocation].
      split; [| split].
      * intros key Hne. rewrite values_named_alter_first.
        by rewrite decide_False.
      * intros other Hne. rewrite values_named_alter_first, decide_True by done.
        rewrite property_value_head in Hprop.
        destruct (values_named prop root) as [|first rest]; [done |].
        injection Hprop as ->. cbn [mbind list_bind app members_of].
        by rewrite values_named_upsert.
      * rewrite property_value_alter_first, decide_True, Hprop by done.
        cbn [fmap option_fmap option_map mbind option_bind jsonc.findNodeAtLocation].
        rewrite property_value_upsert. by rewrite decide_True.
    + intros [= <-]. cbn [members_of jsonc.findNodeAtLocation].
      split; [| split].
      * intros key Hne. rewrite values_named_app, values_named_cons.
        rewrite decide_False by congruence. by rewrite app_nil_r.
      * intros other Hne. rewrite values_named_app, values_named_cons.
        rewrite decide_True by done. rewrite property_value_head in Hprop.
        destruct (values_named prop root); [| done].
        cbn [app mbind list_bind members_of].
        rewrite values_named_cons, decide_False by congruence. done.
      * rewrite property_value_app, Hprop. cbn [jsonc.property_value].
        rewrite decide_True by done. cbn. by rewrite decide_True.
  - intros [= <-]. cbn [members_of jsonc.findNodeAtLocation].
    split; [| split].
    + intros key Hne. by rewrite values_named_cons, decide_False by congruence.
    + intros other Hne. rewrite values_named_cons, decide_True by done.
      cbn [mbind list_bind members_of values_named].
      rewrite values_named_cons, decide_False by congruence. done.
    + cbn. rewrite !decide_True by done. cbn. by rewrite decide_True.
Qed.

Lemma without_entry_frame (prop name : string) (doc : option json) (d : json) :
  without_entry prop name doc = Some d →
  (∀ key, key ≠ prop →
     values_named key (members_of (Some d)) = values_named key (members_of doc)) ∧
  (∀ other, other ≠ name →
     (servers ← values_named prop (members_of (Some d));
      values_named other (members_of (Some servers)))
     = (servers ← values_named prop (members_of doc);
        values_named other (members_of (Some servers)))).
Proof.
  unfold without_entry. destruct doc as [[| | | | |root]|]; try done.
  destruct (jsonc.property_value prop root) as [node|] eqn:Hprop; [| done].
  destruct node as [| | | | |servers]; try done.
  intros [= <-]. cbn [members_of]. split.
  - intros key Hne. rewrite values_named_alter_first. by rewrite decide_False.
  - intros other Hne. rewrite values_named_alter_first, decide_True by done.
    rewrite property_value_head in Hprop.
    destruct (values_named prop root) as [|first rest]; [done |].
    injection Hprop as ->. cbn [mbind list_bind app members_of].
    by rewrite values_named_remove_first.
Qed.

(** The same for the nodes [findNodeAtLocation] finds. *)
Lemma with_entry_nodes (prop name : string) (v : json) (doc : option json)
    (d : json) :
  with_entry prop name v doc = Some d →
  (∀ key, key ≠ prop →
     jsonc.findNodeAtLocation d [key]
     = doc ≫= λ root, jsonc.findNodeAtLocation root [key]) ∧
  (∀ other, other ≠ name →
     jsonc.findNodeAtLocation d [prop; other]
     = doc ≫= λ root, jsonc.findNodeAtLocation root [prop; other]).
Proof.
  unfold with_entry. destruct doc as [[| | | | |root]|]; try done.
  - destruct (jsonc.property_value prop root) as [node|] eqn:Hprop.
    + destruct node as [| | | | |servers]; try done.
      intros [= <-]. cbn [jsonc.findNodeAtLocation mbind option_bind]. split.
      * intros key Hne. rewrite property_value_alter_first.
        by rewrite decide_False.
      * intros other Hne. rewrite property_value_alter_first, decide_True by done.
        rewrite Hprop.
        cbn [fmap option_fmap option_map mbind option_bind jsonc.findNodeAtLocation].
        rewrite property_value_upsert. by rewrite decide_False.
    + intros [= <-]. cbn [jsonc.findNodeAtLocation mbind option_bind]. split.
      * intros key Hne. rewrite property_value_app. cbn [jsonc.property_value].
        rewrite decide_False by congruence.
        by destruct (jsonc.property_value key root).
      * intros other Hne. rewrite property_value_app, Hprop.
        cbn [jsonc.property_value]. rewrite decide_True by done.
        cbn [mbind option_bind jsonc.findNodeAtLocation jsonc.property_value].
        by rewrite decide_False by congruence.
  - intros [= <-]. cbn [jsonc.findNodeAtLocation mbind option_bind]. split.
    + intros key Hne. cbn [jsonc.property_value].
      by rewrite decide_False by congruence.
    + intros other Hne. cbn [jsonc.property_value]. rewrite decide_True by done.
      cbn [mbind option_bind jsonc.findNodeAtLocation jsonc.property_value].
      by rewrite decide_False by congruence.
Qed.

Lemma without_entry_nodes (prop name : string) (doc : option json) (d : json) :
  without_entry prop name doc = Some d →
  (∀ key, key ≠ prop →
     jsonc.findNodeAtLocation d [key]
     = doc ≫= λ root, jsonc.findNodeAtLocation root [key]) ∧
  (∀ other, other ≠ name →
     jsonc.findNodeAtLocation d [prop; other]
     = doc ≫= λ root, jsonc.findNodeAtLocation root [prop; other]).
Proof.
  unfold without_entry. destruct doc as [[| | | | |root]|]; try done.
  destruct (jsonc.property_value prop root) as [node|] eqn:Hprop; [| done].
  destruct node as [| | | | |servers]; try done.
  intros [= <-]. cbn [jsonc.findNodeAtLocation mbind option_bind]. split.
  - intros key Hne. rewrite property_value_alter_first. by rewrite decide_False.
  - intros other Hne. rewrite property_value_alter_first, decide_True by done.
    rewrite Hprop.
    cbn [fmap option_fmap option_map mbind option_bind jsonc.findNodeAtLocation].
    by rewrite property_value_remove_first.
Qed.

(** ** The object [parse] builds *)

(** Its own property [key] is the last member called [key]. *)
Lemma assign_own (members : list (string * json)) (key : string)
    (own0 : gmap string value) (proto0 : option value) :
  key ≠ "__proto__" →
  (foldl jsonc.assign (own0, proto0)
     ((λ '(name, v), (name, jsonc.to_value v)) <$> members)).1 !! key
  = match last (values_named key members) with
    | Some v => Some (jsonc.to_value v)
    | None => own0 !! key
    end.
Proof.
  intros Hkey. revert own0 proto0.
  induction members as [|[name v] rest IH]; intros own0 proto0; [done |].
  cbn [fmap list_fmap foldl]. rewrite values_named_cons.
  unfold jsonc.assign at 2. destruct (decide (name = "__proto__")) as [->|Hname].
  - rewrite decide_False by congruence.
    destruct (jsonc.to_value v); by rewrite IH.
  - rewrite IH. destruct (decide (name = key)) as [->|Hne].
    + rewrite last_cons. destruct (last (values_named key rest)); [done |].
      by rewrite lookup_insert_eq.
    + destruct (last (values_named key rest)); [done |].
      by rewrite lookup_insert_ne.
Qed.

(** No member becomes the property [__proto__]. *)
Lemma assign_own_proto (members : list (string * json))
    (own0 : gmap string value) (proto0 : option value) :
  (foldl jsonc.assign (own0, proto0)
     ((λ '(name, v), (name, jsonc.to_value v)) <$> members)).1 !! "__proto__"
  = own0 !! "__proto__".
Proof.
  revert own0 proto0.
  induction members as [|[name v] rest IH]; intros own0 proto0; [done |].
  cbn [fmap list_fmap foldl].
  unfold jsonc.assign at 2. destruct (decide (name = "__proto__")) as [->|Hname].
  - destruct (jsonc.to_value v); by rewrite IH.
  - rewrite IH. by rewrite lookup_insert_ne.
Qed.

(** Its prototype comes from the members called [__proto__] alone. *)
Lemma assign_proto (members : list (string * json))
    (own0 : gmap string value) (proto0 : option value) :
  (foldl jsonc.assign (own0, proto0)
     ((λ '(name, v), (name, jsonc.to_value v)) <$> members)).2
  = foldl (λ proto v, match jsonc.to_value v with
                      | VObj _ _ | VArr _ | VNull => Some (jsonc.to_value v)
                      | _ => proto
                      end)
      proto0 (values_named "__proto__" members).
Proof.
  revert own0 proto0.
  induction members as [|[name v] rest IH]; intros own0 proto0; [done |].
  cbn [fmap list_fmap foldl]. rewrite values_named_cons.
  unfold jsonc.assign at 2. destruct (decide (name = "__proto__")) as [->|Hname].
  - cbn [foldl]. destruct (jsonc.to_value v); by rewrite IH.
  - by rewrite IH.
Qed.

Lemma to_value_object (members : list (string * json)) :
  jsonc.to_value (JObj members)
  = VObj (foldl jsonc.assign (∅, None)
            ((λ '(name, v), (name, jsonc.to_value v)) <$> members)).1
         (foldl jsonc.assign (∅, None)
            ((λ '(name, v), (name, jsonc.to_value v)) <$> members)).2.
Proof. cbn [jsonc.to_value]. by destruct (foldl _ _ _). Qed.



Lemma has_property_get (key : string) (v : value) :
  has_property key v = bool_decide (is_Some (get_property key v)).
Proof.
  revert v. fix IH 1. intros [| | | | |own proto]; [reflexivity.. |].
  cbn [has_property get_property]. destruct (own !! key) as [x|].
  - by rewrite !bool_decide_eq_true_2 by (by eexists).
  - rewrite (bool_decide_eq_false_2 (is_Some None)) by (by intros [? ?]).
    cbn [orb]. destruct proto as [p|]; [apply IH | done].
Qed.

(** What the object has for the keys other than [prop] depends on the
    members of other names alone. *)
Lemma get_property_frame (members members' : list (string * json)) (prop : string) :
  prop ≠ "__proto__" →
  (∀ key, key ≠ prop → values_named key members' = values_named key members) →
  ∀ key, key ≠ prop →
    get_property key (jsonc.to_value (JObj members'))
    = get_property key (jsonc.to_value (JObj members)).
Proof.
  intros Hprop Hsame key Hkey. rewrite !to_value_object. cbn [get_property].
  rewrite !assign_proto, (Hsame "__proto__") by congruence.
  destruct (decide (key = "__proto__")) as [->|Hne].
  - by rewrite !assign_own_proto.
  - by rewrite !assign_own, (Hsame key) by done.
Qed.
(** ** The file system under [mkdir] and [writeFile] *)

Lemma same_files_refl (w : world) : same_files w w.
Proof. by repeat split. Qed.

Lemma same_files_trans (w1 w2 w3 : world) :
  same_files w1 w2 → same_files w2 w3 → same_files w1 w3.
Proof.
  intros (Hf1 & ? & ? & ? & ?) (Hf2 & ? & ? & ? & ?).
  repeat split; try congruence.
  - intros Hp. by apply Hf1, Hf2.
  - intros Hp. by apply Hf2, Hf1.
Qed.

Lemma same_files_text (c : json_client) (w w1 : world) :
  same_files w w1 → config_text c w1 = config_text c w.
Proof.
  intros (Hf & Hm & _). unfold config_text. rewrite Hm.
  set (p := JsonConfigClient.getConfigPath c (machine w)).
  destruct (fs w1 !! p) as [[content1|]|] eqn:H1.
  - apply Hf in H1. by rewrite H1.
  - destruct (fs w !! p) as [[content|]|] eqn:H0; try done.
    apply Hf in H0. congruence.
  - destruct (fs w !! p) as [[content|]|] eqn:H0; try done.
    apply Hf in H0. congruence.
Qed.

Lemma mkdir_one_files (d : string) (w w1 : world) (r : result ()) :
  mkdir_one d w = (r, w1) →
  same_files w w1 ∧ (r = Ok () → fs w1 !! d = Some Dir).
Proof.
  unfold mkdir_one. destruct (fs w !! d) as [[content|]|] eqn:Hd; intros [= <- <-].
  - split; [apply same_files_refl | done].
  - split; [apply same_files_refl | done].
  - split; [| intros _; apply lookup_insert_eq].
    repeat split; try done; cbn [fs set_fs].
    + intros Hp. destruct (decide (d = p)) as [->|Hne].
      * by rewrite lookup_insert_eq in Hp.
      * by rewrite lookup_insert_ne in Hp.
    + intros Hp. destruct (decide (d = p)) as [->|Hne]; [congruence |].
      by rewrite lookup_insert_ne.
Qed.

Lemma mkdir_each_files (ds : list string) (w w1 : world) (r : result ()) :
  mkdir_each ds w = (r, w1) → same_files w w1.
Proof.
  revert w. induction ds as [|d ds IH]; intros w.
  - intros [= <- <-]. apply same_files_refl.
  - cbn [mkdir_each]. unfold mbind, M_bind.
    destruct (mkdir_one d w) as [[[]|e] w0] eqn:Hone.
    + intros Hrest. apply mkdir_one_files in Hone as [Hone _].
      eapply same_files_trans; [exact Hone | by eapply IH].
    + intros [= <- <-]. by apply mkdir_one_files in Hone as [Hone _].
Qed.

Lemma mkdir_recursive_files (d : string) (w w1 : world) (r : result ()) :
  mkdir_recursive d w = (r, w1) →
  same_files w w1 ∧ (r = Ok () → fs w1 !! d = Some Dir).
Proof.
  unfold mkdir_recursive, mbind, M_bind.
  destruct (mkdir_each (ancestors d) w) as [[[]|e] w0] eqn:Heach.
  - intros Hone. apply mkdir_each_files in Heach.
    apply mkdir_one_files in Hone as [Hone Hd].
    split; [by eapply same_files_trans | done].
  - intros [= <- <-]. by apply mkdir_each_files in Heach.
Qed.

Lemma writeFile_ok (p : string) (content : text) (w : world) :
  fs w !! path_dirname p = Some Dir → fs w !! p ≠ Some Dir →
  writeFile p content w = (Ok (), set_fs (<[p := File content]> (fs w)) w).
Proof.
  intros Hd Hp. unfold writeFile. rewrite Hd.
  by destruct (fs w !! p) as [[?|]|].
Qed.

Lemma decide_is_Some_Some {A} (x : A) : bool_decide (is_Some (Some x)) = true.
Proof. apply bool_decide_eq_true_2. by exists x. Qed.

Lemma decide_is_Some_None {A} : bool_decide (is_Some (@None A)) = false.
Proof. apply bool_decide_eq_false_2. by intros [? ?]. Qed.


(** ** The JSON-config adapters *)

Lemma isServerInstalled_eq (c : json_client) (w : world) :
  JsonConfigClient.isServerInstalled c w
  = (Ok (installed_in (JsonConfigClient.getServerPropertyName c)
           (jsonc.parse (config_text c w))), w).
Proof.
  unfold JsonConfigClient.isServerInstalled, config_text, readFile. run.
  destruct (fs w !! JsonConfigClient.getConfigPath c (machine w))
    as [[content|]|] eqn:HP.
  - rewrite decide_is_Some_Some. cbn [negb]. rewrite HP.
    unfold installed_in, js_index.
    destruct (jsonc.parse content) as [[| | | | |own proto]|]; try done.
    cbn [js_in mbind option_bind]. rewrite has_property_get.
    destruct (get_property _ (VObj own proto)) as [[| | | | |entries inherited]|];
      by rewrite ?decide_is_Some_Some, ?decide_is_Some_None.
  - rewrite decide_is_Some_Some. cbn [negb]. by rewrite HP.
  - by rewrite decide_is_Some_None.
Qed.

Lemma applyEdits_document (content : text) (edits : list jsonc.edit) (d : json) :
  document (jsonc.applyEdits content edits) = Some d →
  jsonc.applyEdits content edits = with_document content d.
Proof. unfold jsonc.applyEdits, with_document. cbn [document]. by intros ->. Qed.

(** How [addServer] ends: with a failure and the files as they were, or
    with the entry in the document. *)
Lemma addServer_outcome (c : json_client) (apiKey : string) (w : world) :
  ∃ r w',
    JsonConfigClient.addServer c apiKey w = (Ok r, w') ∧
    ((success r = false ∧ same_files w w') ∨
     (r = succeeded ∧ machine w' = machine w ∧
      ∃ d,
        with_entry (JsonConfigClient.getServerPropertyName c) MCP_SERVER_NAME
          (JsonConfigClient.getServerConfig c (machine w) apiKey)
          (config_document c w) = Some d ∧
        config_text c w' = with_document (config_text c w) d)).
Proof.
  unfold JsonConfigClient.addServer. run.
  set (P := JsonConfigClient.getConfigPath c (machine w)).
  destruct (mkdir_recursive (path_dirname P) w) as [[[]|e] w1] eqn:Hmk;
    apply mkdir_recursive_files in Hmk as [Hsame Hdir].
  2: { eexists _, _. split; [reflexivity |]. by left. }
  specialize (Hdir eq_refl).
  pose proof (same_files_text c _ _ Hsame) as Htext.
  pose proof Hsame as (Hfiles & Hm & _).
  assert (config_text c w1
          = match fs w1 !! P with Some (File content) => content | _ => empty_text end)
    as Htext1.
  { unfold config_text. by rewrite Hm. }
  unfold config_document. rewrite <- Htext, Htext1.
  destruct (fs w1 !! P) as [[content|]|] eqn:HP.
  - rewrite decide_is_Some_Some. unfold readFile. rewrite HP.
    pose proof (modify_set content (JsonConfigClient.getServerPropertyName c)
                  MCP_SERVER_NAME
                  (JsonConfigClient.getServerConfig c (machine w) apiKey)) as Hmod.
    destruct (jsonc.modify content _ _) as [edits|e].
    + destruct Hmod as [[d Hd] Hdoc]. rewrite Hd in Hdoc.
      rewrite (applyEdits_document _ _ _ Hdoc).
      rewrite writeFile_ok by (done || congruence).
      eexists _, _. split; [reflexivity |]. right. split; [done |]. split; [done |].
      exists d. split; [done |].
      unfold config_text. cbn [fs machine set_fs]. rewrite Hm. fold P.
      by rewrite lookup_insert_eq.
    + eexists _, _. split; [reflexivity |]. left. by split.
  - rewrite decide_is_Some_Some. unfold readFile. rewrite HP.
    eexists _, _. split; [reflexivity |]. left. by split.
  - rewrite decide_is_Some_None.
    pose proof (modify_set empty_text (JsonConfigClient.getServerPropertyName c)
                  MCP_SERVER_NAME
                  (JsonConfigClient.getServerConfig c (machine w) apiKey)) as Hmod.
    destruct (jsonc.modify empty_text _ _) as [edits|e].
    + destruct Hmod as [[d Hd] Hdoc]. rewrite Hd in Hdoc.
      rewrite (applyEdits_document _ _ _ Hdoc).
      rewrite writeFile_ok by (done || congruence).
      eexists _, _. split; [reflexivity |]. right. split; [done |]. split; [done |].
      exists d. split; [done |].
      unfold config_text. cbn [fs machine set_fs]. rewrite Hm. fold P.
      by rewrite lookup_insert_eq.
    + eexists _, _. split; [reflexivity |]. left. by split.
Qed.

Lemma removeServer_absent (c : json_client) (w : world) :
  fs w !! JsonConfigClient.getConfigPath c (machine w) = None →
  JsonConfigClient.removeServer c w = (Ok (failed "Config not found"), w).
Proof.
  intros HP. unfold JsonConfigClient.removeServer. run.
  by rewrite HP, decide_is_Some_None.
Qed.

(** [removeServer] on a config file that is there. *)
Lemma removeServer_present (c : json_client) (w : world) (content : text) :
  let configPath := JsonConfigClient.getConfigPath c (machine w) in
  let prop := JsonConfigClient.getServerPropertyName c in
  fs w !! configPath = Some (File content) →
  JsonConfigClient.removeServer c w
  = match without_entry prop MCP_SERVER_NAME (document content) with
    | None => (Ok (failed (removal_error prop (document content))), w)
    | Some d =>
        match write_error w configPath with
        | None =>
            (Ok succeeded,
             set_fs (<[configPath := File (with_document content d)]> (fs w)) w)
        | Some e => (Ok (failed (error_text e)), w)
        end
    end.
Proof.
  intros configPath prop HP. unfold JsonConfigClient.removeServer. run.
  fold configPath prop. rewrite HP, decide_is_Some_Some. cbn [negb].
  unfold readFile. rewrite HP.
  pose proof (modify_remove content prop MCP_SERVER_NAME) as Hmod.
  destruct (jsonc.modify content _ _) as [edits|e].
  - destruct Hmod as [[d Hd] Hdoc]. rewrite Hd in Hdoc. rewrite Hd.
    rewrite (applyEdits_document _ _ _ Hdoc).
    unfold writeFile, write_error. rewrite HP.
    by destruct (fs w !! path_dirname configPath) as [[?|]|].
  - by destruct Hmod as [-> ->].
Qed.

Lemma removeServer_directory (c : json_client) (w : world) :
  fs w !! JsonConfigClient.getConfigPath c (machine w) = Some Dir →
  JsonConfigClient.removeServer c w
  = (Ok (failed "EISDIR: illegal operation on a directory, read"), w).
Proof.
  intros HP. unfold JsonConfigClient.removeServer. run.
  rewrite HP, decide_is_Some_Some. cbn [negb]. unfold readFile. by rewrite HP.
Qed.

(** How [removeServer] ends: with a failure and the world as it was, or
    without the entry in the document. *)
Lemma removeServer_outcome (c : json_client) (w : world) :
  ∃ r w',
    JsonConfigClient.removeServer c w = (Ok r, w') ∧
    ((success r = false ∧ w' = w) ∨
     (r = succeeded ∧ machine w' = machine w ∧
      ∃ d,
        without_entry (JsonConfigClient.getServerPropertyName c) MCP_SERVER_NAME
          (config_document c w) = Some d ∧
        config_text c w' = with_document (config_text c w) d)).
Proof.
  unfold config_document, config_text.
  set (P := JsonConfigClient.getConfigPath c (machine w)).
  destruct (fs w !! P) as [[content|]|] eqn:HP.
  - rewrite (removeServer_present c w content HP). fold P.
    destruct (without_entry _ _ _) as [d|];
      [| eexists _, _; split; [reflexivity |]; by left].
    destruct (write_error w P);
      [eexists _, _; split; [reflexivity |]; by left |].
    eexists _, _. split; [reflexivity |]. right. split; [done |]. split; [done |].
    exists d. split; [done |]. cbn [fs machine set_fs]. fold P.
    by rewrite lookup_insert_eq.
  - rewrite removeServer_directory by done.
    eexists _, _; split; [reflexivity |]; by left.
  - rewrite removeServer_absent by done.
    eexists _, _; split; [reflexivity |]; by left.
Qed.


Lemma getServerPropertyName_plain (c : json_client) :
  JsonConfigClient.getServerPropertyName c ≠ "__proto__".
Proof. by destruct c. Qed.



(** The per-file base class has the bodies of [JsonConfigClient], but for
    the message of [removeServer] on an absent file. *)
Lemma base_isServerInstalled_same (c : json_client) :
  base.isServerInstalled (JsonConfigClient.getConfigPath c)
    (JsonConfigClient.getServerPropertyName c)
  = JsonConfigClient.isServerInstalled c.
Proof. reflexivity. Qed.

Lemma base_addServer_same (c : json_client) (apiKey : string) :
  base.addServer (JsonConfigClient.getConfigPath c)
    (JsonConfigClient.getServerPropertyName c)
    (JsonConfigClient.getServerConfig c) apiKey
  = JsonConfigClient.addServer c apiKey.
Proof. reflexivity. Qed.

Lemma base_getServerConfig_same (h : host) (apiKey : string) :
  base.getServerConfig h apiKey
  = JsonConfigClient.getServerConfig CursorClient h apiKey.
Proof. reflexivity. Qed.

Lemma cursor_getConfigPath_same (h : host) :
  cursor.getConfigPath h = JsonConfigClient.getConfigPath CursorClient h.
Proof. reflexivity. Qed.

Lemma zed_isClientSupported_same :
  zed.isClientSupported = JsonConfigClient.isClientSupported ZedClient.
Proof. reflexivity. Qed.

Lemma base_removeServer_absent (getConfigPath : host → string) (prop : string)
    (w : world) :
  fs w !! getConfigPath (machine w) = None →
  base.removeServer getConfigPath prop w = (Ok (failed "Config file not found"), w).
Proof.
  intros HP. unfold base.removeServer. run.
  by rewrite HP, decide_is_Some_None.
Qed.

Lemma base_removeServer_present (c : json_client) (w : world) :
  is_Some (fs w !! JsonConfigClient.getConfigPath c (machine w)) →
  base.removeServer (JsonConfigClient.getConfigPath c)
    (JsonConfigClient.getServerPropertyName c) w
  = JsonConfigClient.removeServer c w.
Proof.
  intros [node HP]. unfold base.removeServer, JsonConfigClient.removeServer. run.
  by rewrite HP, decide_is_Some_Some.
Qed.

(** C8, as stated, fails twice.  On an absent config file the
    [removeServer] of the base class of the per-file layout reports
    "Config file not found".  And on a config file that is there,
    [{"theme": "dark"}], no edit is applied and nothing is written back:
    the editor refuses, and [removeServer] reports its message. *)
Lemma removeServer_json_counterexample :
  (fs bare_world !! cursor.getConfigPath (machine bare_world) = None ∧
   base.removeServer cursor.getConfigPath cursor.getServerPropertyName bare_world
   = (Ok {| success := false; error := Some "Config file not found" |}, bare_world) ∧
   base.removeServer cursor.getConfigPath cursor.getServerPropertyName bare_world
   ≠ (Ok {| success := false; error := Some "Config not found" |}, bare_world)) ∧
  (fs cursor_world_without_servers
     !! JsonConfigClient.getConfigPath CursorClient
          (machine cursor_world_without_servers)
   = Some (File (text_of (JObj [("theme", JStr "dark")]))) ∧
   removeServer (JsonConfig CursorClient) cursor_world_without_servers
   = (Ok {| success := false; error := Some "Can not delete in empty document" |},
      cursor_world_without_servers)).
Proof.
  split.
  - split; [reflexivity |].
    rewrite base_removeServer_absent by reflexivity.
    split; [reflexivity | discriminate].
  - split; vm_compute; reflexivity.
Qed.

(** C8, amended. [removeServer] of a JSON-config adapter, when the config
    file is absent, fails and leaves the world as it is, with the error
    "Config not found" in [clients.ts] and "Config file not found" in the
    base class of the per-file layout.  When the file is there the two do
    the same.  With an object under the server property of the document,
    the document without the first "codealive" member of that object is
    written to the same path, the rest of the text as it was, and the
    result is success (the write needs the directory of the file; without
    it the result is a failure and nothing is written).  With anything
    else in the file, the result is a failure with the message of the
    editor, and nothing is written; the message is "Can not delete in empty
    document" when no member of the document has the server property's
    name. *)
Theorem removeServer_json (c : json_client) (w : world) :
  let configPath := JsonConfigClient.getConfigPath c (machine w) in
  let prop := JsonConfigClient.getServerPropertyName c in
  let per_file := base.removeServer (JsonConfigClient.getConfigPath c) prop in
  (fs w !! configPath = None →
   removeServer (JsonConfig c) w
   = (Ok {| success := false; error := Some "Config not found" |}, w) ∧
   per_file w
   = (Ok {| success := false; error := Some "Config file not found" |}, w)) ∧
  (∀ content,
     fs w !! configPath = Some (File content) →
     per_file w = removeServer (JsonConfig c) w ∧
     (∀ root servers,
        document content = Some (JObj root) →
        jsonc.property_value prop root = Some (JObj servers) →
        let edited :=
          JObj (jsonc.alter_first
                  (λ _, JObj (jsonc.remove_first MCP_SERVER_NAME servers))
                  prop root) in
        (fs w !! path_dirname configPath = Some Dir →
         removeServer (JsonConfig c) w
         = (Ok succeeded,
            set_fs (<[configPath := File (with_document content edited)]> (fs w)) w)) ∧
        (fs w !! path_dirname configPath ≠ Some Dir →
         ∃ msg, removeServer (JsonConfig c) w
                = (Ok {| success := false; error := Some msg |}, w))) ∧
     ((∀ root servers,
         document content = Some (JObj root) →
         jsonc.property_value prop root ≠ Some (JObj servers)) →
      removeServer (JsonConfig c) w
      = (Ok {| success := false;
               error := Some (removal_error prop (document content)) |}, w)) ∧
     (jsonc.property_value prop (members_of (document content)) = None →
      removal_error prop (document content) = "Can not delete in empty document")).
Proof.
  intros configPath prop per_file. cbn [removeServer]. split.
  - intros HP. split; [by apply removeServer_absent |].
    by apply base_removeServer_absent.
  - intros content HP. subst per_file.
    rewrite base_removeServer_present by (eexists; exact HP).
    split; [done |].
    rewrite (removeServer_present c w content HP). fold configPath prop.
    split; [| split].
    + intros root servers Hdoc Hprop. cbv zeta. unfold without_entry, write_error.
      rewrite Hdoc, Hprop. split.
      * by intros ->.
      * intros Hdir.
        destruct (fs w !! path_dirname configPath) as [[?|]|]; [| done |];
          by eexists.
    + intros Hnone. unfold without_entry.
      destruct (document content) as [[| | | | |root]|] eqn:Hdoc; try done.
      destruct (jsonc.property_value prop root) as [[| | | | |servers]|] eqn:Hprop;
        try done.
      by destruct (Hnone root servers eq_refl).
    + unfold removal_error, members_of.
      destruct (document content) as [[| | | | |root]|]; try done.
      by intros ->.
Qed.

Lemma removeServer_json_witness :
  removeServer (JsonConfig CursorClient) bare_world
  = (Ok {| success := false; error := Some "Config not found" |}, bare_world) ∧
  removeServer (JsonConfig CursorClient) cursor_world
  = (Ok succeeded,
     set_fs (<["/home/u/.config/cursor/mcp.json" :=
                 File (text_of (JObj [("mcpServers", JObj [("other", other_server)]);
                                      ("theme", JStr "dark")]))]>
               (fs cursor_world))
       cursor_world) ∧
  base.removeServer cursor.getConfigPath cursor.getServerPropertyName cursor_world
  = removeServer (JsonConfig CursorClient) cursor_world ∧
  removeServer (JsonConfig CursorClient) cursor_world_without_servers
  = (Ok {| success := false; error := Some "Can not delete in empty document" |},
     cursor_world_without_servers).
Proof.
  pose proof (removeServer_json CursorClient bare_world) as Hbare.
  pose proof (removeServer_json CursorClient cursor_world) as Hcursor.
  pose proof (removeServer_json CursorClient cursor_world_without_servers)
    as Hwithout.
  cbv zeta in *.
  destruct Hbare as (Habsent & _). destruct Hcursor as (_ & Hfile).
  destruct Hwithout as (_ & Hfile').
  destruct (Habsent eq_refl) as [Hnew _].
  destruct (Hfile (text_of (JObj cursor_root)) eq_refl) as (Hsame & Hedit & _).
  destruct (Hedit cursor_root cursor_servers eq_refl eq_refl) as [Hwritten _].
  destruct (Hfile' (text_of (JObj [("theme", JStr "dark")])) eq_refl)
    as (_ & _ & Hrefused & Hmessage).
  split; [exact Hnew |]. split; [exact (Hwritten eq_refl) |].
  split; [exact Hsame |].
  rewrite Hrefused.
  - rewrite Hmessage; reflexivity.
  - intros root servers [= <-]. discriminate.
Defined.

(** C1. [addServer] and [removeServer] of a JSON-config adapter leave every
    top-level key of the config other than the server property, and every
    entry under the server property other than "codealive", as they were:
    present with the same value, or absent as before.  That holds for the
    node a path leads to, for every member of a text that repeats names,
    and for what a reader of the parsed object finds under a top-level
    key. *)
Theorem addServer_removeServer_frame (c : json_client) (apiKey : string)
    (w w' : world) :
  w' = snd (addServer (JsonConfig c) apiKey w) ∨
  w' = snd (removeServer (JsonConfig c) w) →
  (∀ key, key ≠ JsonConfigClient.getServerPropertyName c →
     top_level c w' key = top_level c w key) ∧
  (∀ name, name ≠ MCP_SERVER_NAME →
     server_entry c w' name = server_entry c w name) ∧
  (∀ key, key ≠ JsonConfigClient.getServerPropertyName c →
     all_top_level c w' key = all_top_level c w key) ∧
  (∀ name, name ≠ MCP_SERVER_NAME →
     all_server_entries c w' name = all_server_entries c w name) ∧
  (∀ key, key ≠ JsonConfigClient.getServerPropertyName c →
     top_level_value c w' key = top_level_value c w key).
Proof.
  set (prop := JsonConfigClient.getServerPropertyName c).
  assert (∀ d : json,
            (∀ key, key ≠ prop →
               values_named key (members_of (Some d))
               = values_named key (members_of (config_document c w))) →
            (∃ root, d = JObj root) →
            (config_document c w = None ∨ ∃ root, config_document c w = Some (JObj root)) →
            ∀ key, key ≠ prop →
              js_index (Some (jsonc.to_value d)) key
              = js_index (jsonc.parse (config_text c w)) key) as Hvalue.
  { intros d Hsame [root' ->] Hdoc key Hkey. unfold jsonc.parse.
    fold (config_document c w). cbn [js_index mbind option_bind].
    destruct Hdoc as [Hdoc | [root Hdoc]]; rewrite Hdoc in *;
      cbn [fmap option_fmap option_map mbind option_bind members_of] in *.
    - rewrite (get_property_frame [] root' prop);
        [done | apply getServerPropertyName_plain | done | done].
    - by apply (get_property_frame root root' prop);
        [apply getServerPropertyName_plain | |]. }
  intros Hw'.
  assert (config_text c w' = config_text c w ∨
          ∃ d, config_text c w' = with_document (config_text c w) d ∧
               (with_entry prop MCP_SERVER_NAME
                  (JsonConfigClient.getServerConfig c (machine w) apiKey)
                  (config_document c w) = Some d ∨
                without_entry prop MCP_SERVER_NAME (config_document c w) = Some d))
    as [Hsame | (d & Htext & Hd)].
  { destruct Hw' as [-> | ->]; cbn [addServer removeServer].
    - destruct (addServer_outcome c apiKey w)
        as (r & w' & -> & [[_ Hsame] | (_ & _ & d & Hd & Htext)]); cbn [snd].
      + left. by apply same_files_text.
      + right. exists d. split; [done | by left].
    - destruct (removeServer_outcome c w)
        as (r & w' & -> & [[_ ->] | (_ & _ & d & Hd & Htext)]); cbn [snd].
      + by left.
      + right. exists d. split; [done | by right]. }
  { unfold top_level, server_entry, all_server_entries, all_top_level,
      top_level_value, config_document. rewrite Hsame. by repeat split. }
  unfold top_level, server_entry, all_server_entries, all_top_level,
    top_level_value, config_document. rewrite Htext.
  cbn [with_document document mbind option_bind]. fold (config_document c w).
  fold prop. unfold jsonc.parse at 1. cbn [document fmap option_fmap option_map].
  destruct Hd as [Hd | Hd].
  - pose proof (with_entry_frame _ _ _ _ _ Hd) as (Hall & Hentries & _).
    pose proof (with_entry_nodes _ _ _ _ _ Hd) as (Hnode & Hentry).
    repeat split; try done.
    apply Hvalue; [done | |].
    + unfold with_entry in Hd.
      destruct (config_document c w) as [[| | | | |root]|]; try done;
        [| injection Hd as <-; by eexists].
      destruct (jsonc.property_value prop root) as [[| | | | |servers]|];
        try done; injection Hd as <-; by eexists.
    + unfold with_entry in Hd.
      destruct (config_document c w) as [[| | | | |root]|]; try done;
        [right; by eexists | by left].
  - pose proof (without_entry_frame _ _ _ _ Hd) as (Hall & Hentries).
    pose proof (without_entry_nodes _ _ _ _ Hd) as (Hnode & Hentry).
    repeat split; try done.
    apply Hvalue; [done | |].
    + unfold without_entry in Hd.
      destruct (config_document c w) as [[| | | | |root]|]; try done.
      destruct (jsonc.property_value prop root) as [[| | | | |servers]|];
        try done; injection Hd as <-; by eexists.
    + unfold without_entry in Hd.
      destruct (config_document c w) as [[| | | | |root]|]; try done.
      right; by eexists.
Qed.

Lemma addServer_removeServer_frame_witness :
  fst (addServer (JsonConfig CursorClient) "test-key" cursor_world) = Ok succeeded ∧
  server_entry CursorClient
    (snd (addServer (JsonConfig CursorClient) "test-key" cursor_world)) "codealive"
  = Some (JsonConfigClient.getServerConfig CursorClient linux_host "test-key") ∧
  top_level CursorClient
    (snd (addServer (JsonConfig CursorClient) "test-key" cursor_world)) "theme"
  = Some (JStr "dark") ∧
  server_entry CursorClient
    (snd (addServer (JsonConfig CursorClient) "test-key" cursor_world)) "other"
  = Some other_server ∧
  all_server_entries CursorClient
    (snd (addServer (JsonConfig CursorClient) "test-key" cursor_world_repeated))
    "other"
  = [] ∧
  fst (removeServer (JsonConfig CursorClient) cursor_world) = Ok succeeded ∧
  server_entry CursorClient
    (snd (removeServer (JsonConfig CursorClient) cursor_world)) "codealive"
  = None ∧
  top_level CursorClient
    (snd (removeServer (JsonConfig CursorClient) cursor_world)) "theme"
  = Some (JStr "dark") ∧
  top_level_value CursorClient
    (snd (removeServer (JsonConfig CursorClient) cursor_world)) "theme"
  = Some (VStr "dark") ∧
  server_entry CursorClient
    (snd (removeServer (JsonConfig CursorClient) cursor_world)) "other"
  = Some other_server.
Proof.
  destruct (addServer_removeServer_frame CursorClient "test-key" cursor_world _
              (or_introl eq_refl)) as (Htop & Hentry & _).
  destruct (addServer_removeServer_frame CursorClient "test-key"
              cursor_world_repeated _ (or_introl eq_refl))
    as (_ & _ & _ & Hentries & _).
  destruct (addServer_removeServer_frame CursorClient "test-key" cursor_world _
              (or_intror eq_refl)) as (Htop' & Hentry' & _ & _ & Hvalue').
  repeat apply conj.
  - vm_compute. reflexivity.
  - vm_compute. reflexivity.
  - rewrite (Htop "theme"); [reflexivity | discriminate].
  - rewrite (Hentry "other"); [reflexivity | discriminate].
  - rewrite (Hentries "other"); [reflexivity | discriminate].
  - vm_compute. reflexivity.
  - vm_compute. reflexivity.
  - rewrite (Htop' "theme"); [reflexivity | discriminate].
  - rewrite (Hvalue' "theme"); [reflexivity | discriminate].
  - rewrite (Hentry' "other"); [reflexivity | discriminate].
Defined.

(** ** [addServer], then [isServerInstalled] *)





Lemma getBinary_cached (w : world) :
  truthy (cachedBinary w) = true →
  ClaudeCode.getBinary w = (Ok (cachedBinary w), w).
Proof. intros Hc. unfold ClaudeCode.getBinary. run. by rewrite Hc. Qed.







(** ** The base-URL override *)

Lemma buildEnv_set (h : host) (apiKey url : string) :
  env h !! "CODEALIVE_BASE_URL" = Some url → url ≠ "" →
  buildEnv h apiKey
  = [("CODEALIVE_API_KEY", apiKey); ("CODEALIVE_BASE_URL", url)].
Proof.
  intros Hurl Hne. unfold buildEnv, truthy. rewrite Hurl.
  by rewrite decide_False.
Qed.

(** C5. With [CODEALIVE_BASE_URL] set to a value, every JSON-config
    adapter writes an entry whose environment holds the API key and that
    value, and Codex is handed both assignments, each behind its own
    [--env].  Claude Code is not: [args.splice(4, 0, ...)] puts the second
    pair between the first [-e] and its value, so the first [-e] is followed
    by [-e], and no assignment follows a flag. *)
Theorem ClaudeCode_base_url_displaced (h : host) (apiKey url : string) :
  env h !! "CODEALIVE_BASE_URL" = Some url → url ≠ "" →
  (∀ c : json_client,
     entry_environment c (JsonConfigClient.getServerConfig c h apiKey)
     = Some (JObj [("CODEALIVE_API_KEY", JStr apiKey);
                   ("CODEALIVE_BASE_URL", JStr url)])) ∧
  flag_values "--env" (Codex.add_args h apiKey)
  = ["CODEALIVE_API_KEY=" +:+ apiKey; "CODEALIVE_BASE_URL=" +:+ url] ∧
  ClaudeCode.add_args h apiKey
  = ["mcp"; "add"; MCP_SERVER_NAME; "-e";
     "-e"; "CODEALIVE_BASE_URL=" +:+ url;
     "CODEALIVE_API_KEY=" +:+ apiKey; "-s"; "user"; "--"; MCP_COMMAND] ++ MCP_ARGS ∧
  flag_values "-e" (ClaudeCode.add_args h apiKey) = ["-e"].
Proof.
  intros Hurl Hne. split; [| split; [| split]].
  - intros c. unfold entry_environment.
    destruct c; cbn; by rewrite (buildEnv_set h apiKey url Hurl Hne).
  - unfold Codex.add_args, truthy. rewrite Hurl. by rewrite decide_False.
  - unfold ClaudeCode.add_args, truthy. rewrite Hurl. by rewrite decide_False.
  - unfold ClaudeCode.add_args, truthy. rewrite Hurl. by rewrite decide_False.
Qed.

Lemma ClaudeCode_base_url_displaced_witness :
  flag_values "--env" (Codex.add_args self_hosted "my-key")
  = ["CODEALIVE_API_KEY=my-key";
     "CODEALIVE_BASE_URL=https://self-hosted.example.com"] ∧
  ClaudeCode.add_args self_hosted "my-key"
  = ["mcp"; "add"; "codealive"; "-e"; "-e";
     "CODEALIVE_BASE_URL=https://self-hosted.example.com";
     "CODEALIVE_API_KEY=my-key"; "-s"; "user"; "--"; "uvx"; "codealive-mcp"] ∧
  flag_values "-e" (ClaudeCode.add_args self_hosted "my-key") = ["-e"].
Proof.
  destruct (ClaudeCode_base_url_displaced self_hosted "my-key"
              "https://self-hosted.example.com" eq_refl)
    as (_ & Hcodex & Hargs & Hflags); [discriminate |].
  split; [exact Hcodex |]. split; [exact Hargs | exact Hflags].
Defined.

(** Without the variable, or with the empty string for it, the entries
    carry the API key alone, and so do both argument lists. *)
Remark base_url_unset (h : host) (apiKey : string) :
  env h !! "CODEALIVE_BASE_URL" = None ∨ env h !! "CODEALIVE_BASE_URL" = Some "" →
  (∀ c : json_client,
     entry_environment c (JsonConfigClient.getServerConfig c h apiKey)
     = Some (JObj [("CODEALIVE_API_KEY", JStr apiKey)])) ∧
  flag_values "--env" (Codex.add_args h apiKey) = ["CODEALIVE_API_KEY=" +:+ apiKey] ∧
  flag_values "-e" (ClaudeCode.add_args h apiKey) = ["CODEALIVE_API_KEY=" +:+ apiKey].
Proof.
  intros Hunset.
  assert (truthy (env h !! "CODEALIVE_BASE_URL") = false) as Hfalse
    by (by destruct Hunset as [-> | ->]).
  split; [| split].
  - intros c. unfold entry_environment, JsonConfigClient.getServerConfig, buildEnv.
    rewrite Hfalse. by destruct c.
  - unfold Codex.add_args. by rewrite Hfalse.
  - unfold ClaudeCode.add_args. by rewrite Hfalse.
Qed.
(** ** [findBinary] on the sample worlds *)

Lemma findBinary_result_witness :
  findBinary "claude"
    ["/home/u/.claude/local/claude"; "/usr/local/bin/claude";
     "/opt/homebrew/bin/claude"] claude_on_disk
  = (Ok (Some "/usr/local/bin/claude"), claude_on_disk) ∧
  fst (findBinary "claude" ["/usr/local/bin/claude"] cli_world) = Ok (Some "claude") ∧
  fst (findBinary "claude" ["/usr/local/bin/claude"] bare_world) = Ok None.
Proof.
  split; [| split].
  - apply (proj1 (findBinary_result "claude" _ claude_on_disk)
             ["/home/u/.claude/local/claude"] "/usr/local/bin/claude"
             ["/opt/homebrew/bin/claude"]).
    + reflexivity.
    + constructor; [reflexivity | constructor].
    + exists (File empty_text). reflexivity.
  - apply (proj1 (proj2 (findBinary_result "claude" ["/usr/local/bin/claude"] cli_world))
             "codealive: uvx codealive-mcp").
    + constructor; [reflexivity | constructor].
    + reflexivity.
  - apply (proj2 (proj2 (findBinary_result "claude" ["/usr/local/bin/claude"] bare_world))).
    split.
    + constructor; [reflexivity | constructor].
    + exists (ErrorObj "Error" "not found"). reflexivity.
Defined.

(** ** Installing and removing, step by step *)

Lemma dirs_made_refl (w : world) : dirs_made w w.
Proof. repeat split; auto. Qed.

Lemma dirs_made_trans (w1 w2 w3 : world) :
  dirs_made w1 w2 → dirs_made w2 w3 → dirs_made w1 w3.
Proof.
  intros (Hf1 & Hm1 & Hh1 & Hr1 & Hc1) (Hf2 & Hm2 & Hh2 & Hr2 & Hc2).
  repeat split; try congruence.
  intros p. destruct (Hf1 p) as [Ha | [Ha Ha']], (Hf2 p) as [Hb | [Hb Hb']].
  - left. congruence.
  - right. split; congruence.
  - right. split; congruence.
  - congruence.
Qed.

Lemma dirs_made_keeps_dir (w w0 : world) (p : string) :
  dirs_made w w0 → fs w !! p = Some Dir → fs w0 !! p = Some Dir.
Proof. intros [Hf _] Hp. destruct (Hf p) as [-> | [? ?]]; congruence. Qed.

Lemma mkdir_one_made (d : string) (w w0 : world) (r : result ()) :
  mkdir_one d w = (r, w0) →
  dirs_made w w0 ∧ (r = Ok () → fs w0 !! d = Some Dir).
Proof.
  unfold mkdir_one. destruct (fs w !! d) as [[content|]|] eqn:Hd; intros [= <- <-].
  - split; [apply dirs_made_refl | done].
  - split; [apply dirs_made_refl | done].
  - split; [| intros _; apply lookup_insert_eq].
    repeat split; try done. intros p. cbn [fs set_fs].
    destruct (decide (d = p)) as [<-|Hne].
    + right. by rewrite lookup_insert_eq.
    + left. by rewrite lookup_insert_ne.
Qed.

Lemma mkdir_each_made (ds : list string) (w w0 : world) (r : result ()) :
  mkdir_each ds w = (r, w0) →
  dirs_made w w0 ∧ (r = Ok () → Forall (λ d, fs w0 !! d = Some Dir) ds).
Proof.
  revert w. induction ds as [|d ds IH]; intros w.
  - intros [= <- <-]. split; [apply dirs_made_refl | by constructor].
  - cbn [mkdir_each]. unfold mbind, M_bind.
    destruct (mkdir_one d w) as [[[]|e] w1] eqn:Hone.
    + intros Hrest. apply mkdir_one_made in Hone as [Hone Hd].
      apply IH in Hrest as [Hrest Hds].
      split; [by eapply dirs_made_trans |].
      intros Hr. constructor; [| by apply Hds].
      eapply dirs_made_keeps_dir; [exact Hrest | by apply Hd].
    + intros [= <- <-]. apply mkdir_one_made in Hone as [Hone _]. by split.
Qed.

Lemma mkdir_recursive_made (d : string) (w w0 : world) (r : result ()) :
  mkdir_recursive d w = (r, w0) →
  dirs_made w w0 ∧
  (r = Ok () → Forall (λ d', fs w0 !! d' = Some Dir) (ancestors d ++ [d])).
Proof.
  unfold mkdir_recursive, mbind, M_bind.
  destruct (mkdir_each (ancestors d) w) as [[[]|e] w1] eqn:Heach.
  - intros Hone. apply mkdir_each_made in Heach as [Heach Hds].
    apply mkdir_one_made in Hone as [Hone Hd].
    split; [by eapply dirs_made_trans |].
    intros Hr. apply Forall_app. split.
    + eapply Forall_impl; [by apply Hds |].
      intros d' Hd'. by eapply dirs_made_keeps_dir.
    + constructor; [by apply Hd | constructor].
  - intros [= <- <-]. apply mkdir_each_made in Heach as [Heach _]. by split.
Qed.




Lemma dirs_made_same_files (w w0 : world) : dirs_made w w0 → same_files w w0.
Proof.
  intros (Hf & ? & ? & ? & ?). repeat split; try done.
  - intros Hp. destruct (Hf p) as [<- | [_ ?]]; congruence.
  - intros Hp. destruct (Hf p) as [-> | [? _]]; congruence.
Qed.

Lemma set_fs_same (w : world) : set_fs (fs w) w = w.
Proof. by destruct w. Qed.

(** What a successful [addServer] did. *)
Lemma addServer_written (c : json_client) (apiKey : string) (w w' : world)
    (r : InstallResult) :
  let configPath := JsonConfigClient.getConfigPath c (machine w) in
  JsonConfigClient.addServer c apiKey w = (Ok r, w') → success r = true →
  ∃ w0 d,
    mkdir_recursive (path_dirname configPath) w = (Ok (), w0) ∧
    fs w0 !! configPath ≠ Some Dir ∧
    with_entry (JsonConfigClient.getServerPropertyName c) MCP_SERVER_NAME
      (JsonConfigClient.getServerConfig c (machine w) apiKey)
      (config_document c w) = Some d ∧
    r = succeeded ∧
    w' = set_fs (<[configPath := File (with_document (config_text c w) d)]> (fs w0)) w0.
Proof.
  intros P. unfold JsonConfigClient.addServer. run. fold P.
  destruct (mkdir_recursive (path_dirname P) w) as [[[]|e] w0] eqn:Hmk;
    [| by intros [= <- <-]].
  pose proof Hmk as [Hsame Hdir]%mkdir_recursive_files.
  specialize (Hdir eq_refl).
  pose proof (same_files_text c _ _ Hsame) as Htext.
  pose proof Hsame as (Hfiles & Hm & _).
  assert (config_text c w0
          = match fs w0 !! P with Some (File content) => content | _ => empty_text end)
    as Htext0.
  { unfold config_text. by rewrite Hm. }
  unfold config_document. rewrite <- Htext, Htext0.
  destruct (fs w0 !! P) as [[content|]|] eqn:HP.
  - rewrite decide_is_Some_Some. unfold readFile. rewrite HP.
    pose proof (modify_set content (JsonConfigClient.getServerPropertyName c)
                  MCP_SERVER_NAME
                  (JsonConfigClient.getServerConfig c (machine w) apiKey)) as Hmod.
    destruct (jsonc.modify content _ _) as [edits|e]; [| by intros [= <- <-]].
    destruct Hmod as [[d Hd] Hdoc]. rewrite Hd in Hdoc.
    rewrite (applyEdits_document _ _ _ Hdoc).
    rewrite writeFile_ok by (done || congruence).
    intros [= <- <-] _. exists w0, d. repeat split; (done || congruence).
  - rewrite decide_is_Some_Some. unfold readFile. rewrite HP. by intros [= <- <-].
  - rewrite decide_is_Some_None.
    pose proof (modify_set empty_text (JsonConfigClient.getServerPropertyName c)
                  MCP_SERVER_NAME
                  (JsonConfigClient.getServerConfig c (machine w) apiKey)) as Hmod.
    destruct (jsonc.modify empty_text _ _) as [edits|e]; [| by intros [= <- <-]].
    destruct Hmod as [[d Hd] Hdoc]. rewrite Hd in Hdoc.
    rewrite (applyEdits_document _ _ _ Hdoc).
    rewrite writeFile_ok by (done || congruence).
    intros [= <- <-] _. exists w0, d. repeat split; (done || congruence).
Qed.

(** What a successful [removeServer] did. *)
Lemma removeServer_written (c : json_client) (w w' : world) (r : InstallResult) :
  let configPath := JsonConfigClient.getConfigPath c (machine w) in
  JsonConfigClient.removeServer c w = (Ok r, w') → success r = true →
  ∃ content d,
    fs w !! configPath = Some (File content) ∧
    without_entry (JsonConfigClient.getServerPropertyName c) MCP_SERVER_NAME
      (document content) = Some d ∧
    fs w !! path_dirname configPath = Some Dir ∧
    r = succeeded ∧
    w' = set_fs (<[configPath := File (with_document content d)]> (fs w)) w.
Proof.
  intros P Hrm Hr.
  destruct (fs w !! P) as [[content|]|] eqn:HP.
  - rewrite (removeServer_present c w content HP) in Hrm. fold P in Hrm.
    destruct (without_entry _ _ _) as [d|] eqn:Hd;
      [| injection Hrm as <- <-; discriminate Hr].
    unfold write_error in Hrm.
    destruct (fs w !! path_dirname P) as [[?|]|] eqn:Hdir;
      injection Hrm as <- <-; try discriminate Hr.
    by exists content, d.
  - rewrite removeServer_directory in Hrm by done.
    injection Hrm as <- <-. discriminate Hr.
  - rewrite removeServer_absent in Hrm by done.
    injection Hrm as <- <-. discriminate Hr.
Qed.

(** The effect of a mutation on the programs and on the other files. *)
Lemma json_mutation_effect (c : json_client) (apiKey : string) (w w' : world)
    (r : InstallResult) :
  addServer (JsonConfig c) apiKey w = (Ok r, w') ∨
  removeServer (JsonConfig c) w = (Ok r, w') →
  history w' = history w ∧ machine w' = machine w ∧
  (∀ p content,
     p ≠ JsonConfigClient.getConfigPath c (machine w) →
     fs w' !! p = Some (File content) ↔ fs w !! p = Some (File content)) ∧
  (success r = false → same_files w w').
Proof.
  cbn [addServer removeServer]. intros [Hadd | Hrm].
  - destruct (success r) eqn:Hr.
    + destruct (addServer_written c apiKey w w' r Hadd Hr)
        as (w0 & d & Hmk & _ & _ & _ & ->).
      apply mkdir_recursive_files in Hmk as [(Hf & Hm & Hh & _) _].
      cbn [history machine fs set_fs]. split; [done |]. split; [done |].
      split; [| done].
      intros p content Hp. rewrite lookup_insert_ne by done. apply Hf.
    + destruct (addServer_outcome c apiKey w) as (r0 & w0 & Hadd' & Hcases).
      rewrite Hadd in Hadd'. injection Hadd' as <- <-.
      destruct Hcases as [[_ Hsame] | (-> & _)]; [| discriminate Hr].
      pose proof Hsame as (Hf & Hm & Hh & _).
      split; [done |]. split; [done |]. split; [| done].
      intros p content _. apply Hf.
  - destruct (success r) eqn:Hr.
    + destruct (removeServer_written c w w' r Hrm Hr)
        as (content & d & _ & _ & _ & _ & ->).
      cbn [history machine fs set_fs]. split; [done |]. split; [done |].
      split; [| done].
      intros p content' Hp. by rewrite lookup_insert_ne.
    + destruct (removeServer_outcome c w) as (r0 & w0 & Hrm' & Hcases).
      rewrite Hrm in Hrm'. injection Hrm' as <- <-.
      destruct Hcases as [[_ ->] | (-> & _)]; [| discriminate Hr].
      split; [done |]. split; [done |]. split; [done |].
      intros _. apply same_files_refl.
Qed.












(** X4. After a successful [addServer] the agent is detected: the
    directory of its config file is there.  Zed is the exception where its
    platform guard answers first. *)
Theorem addServer_then_isClientSupported (c : json_client) (apiKey : string)
    (w w' : world) (r : InstallResult) :
  addServer (JsonConfig c) apiKey w = (Ok r, w') → success r = true →
  c ≠ ZedClient ∨ platform (machine w) = "darwin" ∨ platform (machine w) = "linux" →
  isClientSupported (JsonConfig c) w' = (Ok true, w').
Proof.
  cbn [addServer isClientSupported]. intros Hadd Hr Hzed.
  destruct (addServer_written c apiKey w w' r Hadd Hr)
    as (w0 & d & Hmk & HP & Hd & -> & ->).
  set (P := JsonConfigClient.getConfigPath c (machine w)) in *.
  pose proof Hmk as [(_ & Hm & _) Hdirs]%mkdir_recursive_made.
  specialize (Hdirs eq_refl).
  apply Forall_app in Hdirs as [_ Hdir]. apply Forall_cons in Hdir as [Hdir _].
  set (w1 := set_fs _ w0).
  assert (fs w1 !! path_dirname P = Some Dir) as Hdir1.
  { cbn [fs w1 set_fs]. rewrite lookup_insert_ne; [done |]. intros Heq. congruence. }
  assert (existsSync (path_dirname P) w1 = (Ok true, w1)) as Hex
    by (apply existsSync_present; by rewrite Hdir1).
  unfold JsonConfigClient.isClientSupported, mbind, M_bind, get_host.
  assert (machine w1 = machine w) as -> by done. fold P.
  destruct c; try (by rewrite Hex).
  case_decide as Hplat; [| exact Hex].
  destruct Hzed as [? | [? | ?]]; [done | |]; by destruct Hplat.
Qed.

Lemma addServer_then_isClientSupported_witness :
  isClientSupported (JsonConfig CursorClient) bare_world = (Ok false, bare_world) ∧
  isClientSupported (JsonConfig CursorClient)
    (snd (addServer (JsonConfig CursorClient) "test-key" bare_world))
  = (Ok true, snd (addServer (JsonConfig CursorClient) "test-key" bare_world)).
Proof.
  split; [vm_compute; reflexivity |].
  apply (addServer_then_isClientSupported CursorClient "test-key" bare_world _
           succeeded); [vm_compute; reflexivity | reflexivity |].
  left. discriminate.
Defined.

(** ** One config file for each adapter *)

Lemma chars_append (a b : string) :
  String.list_ascii_of_string (a +:+ b)
  = String.list_ascii_of_string a ++ String.list_ascii_of_string b.
Proof.
  induction a as [|x a IH]; [done |].
  rewrite append_cons. cbn [String.list_ascii_of_string app]. by rewrite IH.
Qed.

Lemma chars_length (s : string) :
  length (String.list_ascii_of_string s) = String.length s.
Proof. induction s as [|x s IH]; [done |]. cbn. by rewrite IH. Qed.

(** Two texts that end differently are different. *)
Lemma distinct_tails (x1 x2 s1 s2 : string) :
  let n := (String.length s1 `min` String.length s2)%nat in
  take n (reverse (String.list_ascii_of_string s1))
  ≠ take n (reverse (String.list_ascii_of_string s2)) →
  x1 +:+ s1 ≠ x2 +:+ s2.
Proof.
  intros n Htails Heq. apply Htails.
  apply (f_equal (λ s, take n (reverse (String.list_ascii_of_string s)))) in Heq.
  rewrite !chars_append, !reverse_app in Heq.
  rewrite !take_app_le in Heq; [done | |];
    rewrite length_reverse, chars_length; lia.
Qed.

Lemma filter_nonempty (segments : list string) :
  Forall (λ s, s ≠ "") segments → filter (λ s, s ≠ "") segments = segments.
Proof.
  induction 1 as [|s rest Hs _ IH]; [done |].
  by rewrite filter_cons, decide_True, IH.
Qed.

(** A path ends with its last segments. *)
Lemma path_join_tail (base : string) (segments : list string) :
  segments ≠ [] → Forall (λ s, s ≠ "") segments →
  ∃ front, path_join (base :: segments) = front +:+ String.concat "/" segments.
Proof.
  intros Hsome Hall. unfold path_join. rewrite filter_cons.
  rewrite (filter_nonempty segments Hall).
  destruct segments as [|s rest]; [done |].
  destruct (decide (base ≠ "")).
  - exists (base +:+ "/"). cbn [String.concat]. by rewrite append_assoc.
  - by exists "".
Qed.

Ltac path_tails :=
  repeat match goal with
         | |- context [path_join (?base :: ?segments)] =>
             let front := fresh "front" in
             destruct (path_join_tail base segments) as [front ->];
             [done | repeat constructor; done |]
         end.

Lemma getConfigPath_distinct (c c' : json_client) (h : host) :
  c ≠ c' → JsonConfigClient.getConfigPath c h ≠ JsonConfigClient.getConfigPath c' h.
Proof.
  intros Hne. unfold JsonConfigClient.getConfigPath.
  change (path_join ["Code"; "User"; "globalStorage"; "saoudrizwan.claude-dev";
                     "settings"; "cline_mcp_settings.json"])
    with "Code/User/globalStorage/saoudrizwan.claude-dev/settings/cline_mcp_settings.json".
  change (path_join ["Code"; "User"; "globalStorage"; "rooveterinaryinc.roo-cline";
                     "settings"; "mcp_settings.json"])
    with "Code/User/globalStorage/rooveterinaryinc.roo-cline/settings/mcp_settings.json".
  destruct c, c'; try done; clear Hne;
    repeat case_decide; try destruct (truthy _); try congruence;
    path_tails; apply distinct_tails; vm_compute; discriminate.
Qed.

(** X5. No two JSON-config adapters share a config file on a host, so
    installing to one agent, or removing from it, leaves the text of every
    other agent's config and its [isServerInstalled] answer as they
    were. *)
Theorem adapters_keep_apart (c c' : json_client) (apiKey : string)
    (w w' : world) (r : InstallResult) :
  c ≠ c' →
  addServer (JsonConfig c) apiKey w = (Ok r, w') ∨
  removeServer (JsonConfig c) w = (Ok r, w') →
  JsonConfigClient.getConfigPath c (machine w)
  ≠ JsonConfigClient.getConfigPath c' (machine w) ∧
  config_text c' w' = config_text c' w ∧
  fst (isServerInstalled (JsonConfig c') w')
  = fst (isServerInstalled (JsonConfig c') w).
Proof.
  intros Hne Hrun.
  pose proof (getConfigPath_distinct c c' (machine w) Hne) as Hpaths.
  destruct (json_mutation_effect c apiKey w w' r Hrun) as (_ & Hm & Hfiles & _).
  assert (config_text c' w' = config_text c' w) as Htext.
  { unfold config_text. rewrite Hm.
    set (P' := JsonConfigClient.getConfigPath c' (machine w)) in *.
    assert (P' ≠ JsonConfigClient.getConfigPath c (machine w)) as Hother
      by congruence.
    destruct (fs w' !! P') as [[content'|]|] eqn:H1.
    - apply (Hfiles P' content' Hother) in H1. by rewrite H1.
    - destruct (fs w !! P') as [[content|]|] eqn:H0; try done.
      apply (Hfiles P' content Hother) in H0. congruence.
    - destruct (fs w !! P') as [[content|]|] eqn:H0; try done.
      apply (Hfiles P' content Hother) in H0. congruence. }
  split; [done |]. split; [done |].
  cbn [isServerInstalled]. by rewrite !isServerInstalled_eq, Htext.
Qed.

Lemma adapters_keep_apart_witness :
  config_text VSCodeClient
    (snd (addServer (JsonConfig CursorClient) "test-key" two_agents))
  = text_of (JObj [("servers", JObj [])]) ∧
  fst (isServerInstalled (JsonConfig VSCodeClient)
         (snd (addServer (JsonConfig CursorClient) "test-key" two_agents)))
  = Ok false.
Proof.
  assert (addServer (JsonConfig CursorClient) "test-key" two_agents
          = (Ok succeeded, snd (addServer (JsonConfig CursorClient) "test-key" two_agents)))
    as Hadd by (vm_compute; reflexivity).
  destruct (adapters_keep_apart CursorClient VSCodeClient "test-key" two_agents
              (snd (addServer (JsonConfig CursorClient) "test-key" two_agents))
              succeeded)
    as (_ & Htext & Hinstalled); [discriminate | by left |].
  split.
  - rewrite Htext. reflexivity.
  - rewrite Hinstalled. reflexivity.
Defined.

(** ** The CLI adapters *)

Lemma concat_nonempty (sep p : string) (ps : list string) :
  p ≠ "" → String.concat sep (p :: ps) ≠ "".
Proof.
  intros Hp. destruct ps as [|q ps]; [done |]. cbn [String.concat].
  destruct p as [|x p]; [done |]. by rewrite append_cons.
Qed.

Lemma path_join_nonempty (parts : list string) : path_join parts ≠ "".
Proof.
  unfold path_join. destruct (filter _ parts) as [|p ps] eqn:Hf; [done |].
  apply concat_nonempty.
  assert (p ∈ filter (λ s : string, s ≠ "") parts) as Hin by (rewrite Hf; left).
  by apply list_elem_of_filter in Hin as [? _].
Qed.

Lemma first_existing_in (w : world) (candidates : list string) (c : string) :
  first_existing candidates w = (Ok (Some c), w) → c ∈ candidates.
Proof.
  induction candidates as [|x rest IH]; [done |].
  cbn [first_existing]. unfold mbind, M_bind, existsSync.
  case_bool_decide.
  - intros [= <-]. left.
  - intros Hrest. right. by apply IH.
Qed.

(** The two ways [findBinary] ends. *)
Lemma findBinary_cases (name : string) (candidates : list string) (w : world) :
  (∃ c, c ∈ candidates ∧ findBinary name candidates w = (Ok (Some c), w)) ∨
  (Forall (absent w) candidates ∧
   findBinary name candidates w
   = (match responder w (history w) (locate_command w name) with
      | Ok _ => Ok (Some name)
      | Throw _ => Ok None
      end, after_run (locate_command w name) w)).
Proof.
  unfold findBinary, mbind, M_bind.
  destruct (first_existing_total w candidates) as (r & Hr & Hnone).
  rewrite Hr. destruct r as [c|].
  - left. exists c. split; [by eapply first_existing_in | done].
  - right. split; [by apply Hnone |].
    unfold try_catch, get_host, execFileSync, mret, M_ret.
    fold (locate_command w name).
    by destruct (responder w (history w) (locate_command w name)).
Qed.

Lemma findClaudeBinary_eq (w : world) :
  findClaudeBinary w = findBinary "claude" (claude_candidates (machine w)) w.
Proof. reflexivity. Qed.

Lemma findCodexBinary_eq (w : world) :
  Codex.findCodexBinary w = findBinary "codex" (codex_candidates (machine w)) w.
Proof. reflexivity. Qed.

Lemma claude_candidates_nonempty (h : host) :
  Forall (λ c, c ≠ "") (claude_candidates h).
Proof. repeat constructor; (apply path_join_nonempty || done). Qed.

Lemma codex_candidates_nonempty (h : host) :
  Forall (λ c, c ≠ "") (codex_candidates h).
Proof. repeat constructor; (apply path_join_nonempty || done). Qed.

Lemma truthy_Some (s : string) : s ≠ "" → truthy (Some s) = true.
Proof. intros Hs. unfold truthy. by rewrite decide_False. Qed.

(** A binary that was found is a usable path, and finding it changes
    nothing but the record of what was run. *)
Lemma findBinary_found (name : string) (candidates : list string) (w w1 : world)
    (b : option string) :
  name ≠ "" → Forall (λ c, c ≠ "") candidates →
  findBinary name candidates w = (Ok b, w1) →
  (b = None ∨ truthy b = true) ∧
  fs w1 = fs w ∧ machine w1 = machine w ∧ responder w1 = responder w ∧
  cachedBinary w1 = cachedBinary w ∧
  (w1 = w ∨ w1 = after_run (locate_command w name) w).
Proof.
  intros Hname Hcands.
  destruct (findBinary_cases name candidates w) as [(c & Hc & ->) | [_ ->]].
  - intros [= <- <-]. split; [| by auto 10].
    right. apply truthy_Some. by eapply Forall_forall in Hcands.
  - destruct (responder w (history w) (locate_command w name));
      intros [= <- <-]; (split; [| by auto 10]); [right | by left].
    by apply truthy_Some.
Qed.

Lemma getBinary_result (w : world) :
  ∃ b w1,
    ClaudeCode.getBinary w = (Ok b, w1) ∧
    (b = None ∨ truthy b = true) ∧
    fs w1 = fs w ∧ machine w1 = machine w ∧ responder w1 = responder w ∧
    (truthy b = true → cachedBinary w1 = b) ∧
    (b = None → cachedBinary w1 = cachedBinary w) ∧
    (history w1 = history w ∨
     history w1 = history w ++ [locate_command w "claude"]) ∧
    (truthy b = false → truthy (cachedBinary w1) = false).
Proof.
  unfold ClaudeCode.getBinary. run.
  destruct (truthy (cachedBinary w)) eqn:Hc.
  { eexists _, _. split; [reflexivity |]. repeat split; auto. }
  rewrite findClaudeBinary_eq.
  destruct (findBinary "claude" (claude_candidates (machine w)) w)
    as [[b|e] w1] eqn:Hfind.
  2: { destruct (findBinary_cases "claude" (claude_candidates (machine w)) w)
         as [(c & _ & Heq) | [_ Heq]]; rewrite Heq in Hfind; [done |].
       by destruct (responder w (history w) _). }
  apply findBinary_found in Hfind
    as (Hb & Hfs & Hm & Hr & Hcache & Hw1);
    [| done | apply claude_candidates_nonempty].
  assert (history w1 = history w ∨
          history w1 = history w ++ [locate_command w "claude"]) as Hh.
  { destruct Hw1 as [-> | ->]; [by left | by right]. }
  destruct Hb as [-> | Hb].
  - eexists _, _. split; [reflexivity |]. cbn [truthy].
    repeat split; auto; try done. intros _. by rewrite Hcache.
  - rewrite Hb. eexists _, _. split; [reflexivity |].
    cbn [fs machine responder cachedBinary history set_cachedBinary].
    repeat split; auto; try done. intros ->. done.
Qed.

(** X6. Claude Code looks for its binary once.  When [isClientSupported]
    has answered true, the binary is kept in the instance, and in every
    world where the instance holds it the answer is true again with no
    file tested and no program asked.  When the answer was false, nothing
    is kept. *)
Theorem ClaudeCode_binary_memoized (w w1 : world) (supported : bool) :
  isClientSupported ClaudeCodeClient w = (Ok supported, w1) →
  (supported = true →
   ∀ w2, cachedBinary w2 = cachedBinary w1 →
         isClientSupported ClaudeCodeClient w2 = (Ok true, w2)) ∧
  (supported = false → truthy (cachedBinary w1) = false).
Proof.
  cbn [isClientSupported]. unfold ClaudeCode.isClientSupported.
  unfold mbind at 1. unfold M_bind at 1.
  destruct (getBinary_result w)
    as (b & w0 & -> & Hb & _ & _ & _ & Hcache & Hnone & _ & Hfalse).
  unfold mret, M_ret. intros [= <- <-]. split.
  - intros Hsome%bool_decide_eq_true_1. destruct Hb as [-> | Hb].
    { by destruct Hsome. }
    intros w2 Hw2. unfold mbind, M_bind.
    rewrite getBinary_cached by (by rewrite Hw2, Hcache).
    rewrite Hw2, Hcache by done. f_equal. f_equal.
    by apply bool_decide_eq_true_2.
  - intros Hnot%bool_decide_eq_false_1. destruct Hb as [-> | Hb].
    + by apply Hfalse.
    + destruct b; [| done]. destruct Hnot. by eexists.
Qed.



(** X8. With the binary found, [addServer] of a CLI adapter runs two
    programs, [mcp remove] and then [mcp add], and its result is that of
    the second alone: a failing removal is ignored.  [removeServer] of
    Claude Code runs the removal and reports how it ended. *)
Theorem cli_addServer_runs (apiKey : string) (w w1 : world) (binary : string) :
  binary ≠ "" →
  (Codex.findCodexBinary w = (Ok (Some binary), w1) →
   let remove := run_of binary ["mcp"; "remove"; MCP_SERVER_NAME] in
   let add := run_of binary (Codex.add_args (machine w1) apiKey) in
   addServer CodexClient apiKey w
   = (Ok (install_result (responder w1 (history w1 ++ [remove]) add)),
      after_run add (after_run remove w1))) ∧
  (ClaudeCode.getBinary w = (Ok (Some binary), w1) →
   let remove :=
     run_of binary ["mcp"; "remove"; "--scope"; "user"; MCP_SERVER_NAME] in
   let add := run_of binary (ClaudeCode.add_args (machine w1) apiKey) in
   addServer ClaudeCodeClient apiKey w
   = (Ok (install_result (responder w1 (history w1 ++ [remove]) add)),
      after_run add (after_run remove w1)) ∧
   removeServer ClaudeCodeClient w
   = (Ok (install_result (responder w1 (history w1) remove)),
      after_run remove w1)).
Proof.
  intros Hb. split.
  - intros Hfind remove add. cbn [addServer].
    unfold Codex.addServer, mbind at 1. unfold M_bind at 1.
    rewrite Hfind, truthy_Some by done.
    change (or_empty (Some binary)) with binary. cbn [negb].
    unfold execFileSync. run.
    change {| inv_file := binary; inv_args := ["mcp"; "remove"; MCP_SERVER_NAME] |}
      with remove.
    destruct (responder w1 (history w1) remove);
      cbn [history responder machine set_history];
      change {| inv_file := binary; inv_args := Codex.add_args (machine w1) apiKey |}
        with add;
      by destruct (responder w1 (history w1 ++ [remove]) add).
  - intros Hget remove add. cbn [addServer removeServer]. split.
    + unfold ClaudeCode.addServer, mbind at 1. unfold M_bind at 1.
      rewrite Hget, truthy_Some by done.
      change (or_empty (Some binary)) with binary. cbn [negb].
      unfold execFileSync. run.
      change {| inv_file := binary;
                inv_args := ["mcp"; "remove"; "--scope"; "user"; MCP_SERVER_NAME] |}
        with remove.
      destruct (responder w1 (history w1) remove);
        cbn [history responder machine set_history];
        change {| inv_file := binary;
                  inv_args := ClaudeCode.add_args (machine w1) apiKey |}
          with add;
        by destruct (responder w1 (history w1 ++ [remove]) add).
    + unfold ClaudeCode.removeServer, mbind at 1. unfold M_bind at 1.
      rewrite Hget, truthy_Some by done.
      change (or_empty (Some binary)) with binary. cbn [negb].
      unfold execFileSync. run.
      change {| inv_file := binary;
                inv_args := ["mcp"; "remove"; "--scope"; "user"; MCP_SERVER_NAME] |}
        with remove.
      by destruct (responder w1 (history w1) remove).
Qed.

Lemma ClaudeCode_binary_memoized_witness :
  isClientSupported ClaudeCodeClient claude_on_disk
  = (Ok true, set_cachedBinary (Some "/usr/local/bin/claude") claude_on_disk) ∧
  isClientSupported ClaudeCodeClient
    (set_cachedBinary (Some "/usr/local/bin/claude") bare_world)
  = (Ok true, set_cachedBinary (Some "/usr/local/bin/claude") bare_world).
Proof.
  assert (isClientSupported ClaudeCodeClient claude_on_disk
          = (Ok true, set_cachedBinary (Some "/usr/local/bin/claude") claude_on_disk))
    as Hfirst by (vm_compute; reflexivity).
  split; [exact Hfirst |].
  apply (proj1 (ClaudeCode_binary_memoized claude_on_disk _ true Hfirst) eq_refl).
  reflexivity.
Defined.


Lemma cli_addServer_runs_witness :
  addServer ClaudeCodeClient "test-key" claude_on_disk_removal_fails
  = (Ok succeeded,
     after_run (run_of "/usr/local/bin/claude"
                  (ClaudeCode.add_args linux_host "test-key"))
       (after_run (run_of "/usr/local/bin/claude"
                     ["mcp"; "remove"; "--scope"; "user"; "codealive"])
          (set_cachedBinary (Some "/usr/local/bin/claude")
             claude_on_disk_removal_fails))).
Proof.
  destruct (cli_addServer_runs "test-key" claude_on_disk_removal_fails
              (set_cachedBinary (Some "/usr/local/bin/claude")
                 claude_on_disk_removal_fails)
              "/usr/local/bin/claude") as [_ Hclaude]; [discriminate |].
  destruct Hclaude as [Hadd _]; [vm_compute; reflexivity |].
  exact Hadd.
Defined.

(** ** Failures are results *)










(** [isClientSupported] of a JSON-config adapter looks at the files and
    the host only. *)
Lemma json_isClientSupported_reads (c : json_client) (w : world) :
  ∃ b, JsonConfigClient.isClientSupported c w = (Ok b, w) ∧
       ∀ w1, fs w1 = fs w → machine w1 = machine w →
             JsonConfigClient.isClientSupported c w1 = (Ok b, w1).
Proof.
  unfold JsonConfigClient.isClientSupported. run.
  destruct c;
    try (destruct (bool_decide (is_Some (fs w !! _))) eqn:Hhere;
         (eexists; split; [reflexivity |]);
         intros w1 Hfs Hm; rewrite Hm, Hfs, Hhere; cbn beta;
         rewrite ?Hfs; reflexivity).
  destruct (decide _) as [Hp|Hp].
  - eexists; split; [reflexivity |]. intros w1 Hfs Hm. rewrite Hm.
    by rewrite decide_True.
  - eexists; split; [reflexivity |]. intros w1 Hfs Hm. rewrite Hm.
    rewrite decide_False by done. by rewrite Hfs.
Qed.

Lemma ClaudeCode_isClientSupported_reads (w : world) :
  ∃ b w1, ClaudeCode.isClientSupported w = (Ok b, w1) ∧
          fs w1 = fs w ∧ machine w1 = machine w.
Proof.
  unfold ClaudeCode.isClientSupported, mbind, M_bind.
  destruct (getBinary_result w) as (b & w1 & -> & _ & Hfs & Hm & _).
  by eexists _, _.
Qed.

Lemma Codex_isClientSupported_reads (w : world) :
  ∃ b w1, Codex.isClientSupported w = (Ok b, w1) ∧
          fs w1 = fs w ∧ machine w1 = machine w.
Proof.
  unfold Codex.isClientSupported, mbind, M_bind.
  rewrite findCodexBinary_eq.
  destruct (findBinary_cases "codex" (codex_candidates (machine w)) w)
    as [(c & _ & ->) | [_ ->]]; [by eexists _, _ |].
  destruct (responder w (history w) _); by eexists _, _.
Qed.

Lemma supported_among_app (l1 l2 : list client) (w w1 w2 : world)
    (f1 f2 : list client) :
  supported_among l1 w = (Ok f1, w1) → supported_among l2 w1 = (Ok f2, w2) →
  supported_among (l1 ++ l2) w = (Ok (f1 ++ f2), w2).
Proof.
  revert w f1. induction l1 as [|c rest IH]; intros w f1 H1 H2.
  - by injection H1 as <- <-.
  - cbn [supported_among app] in *. unfold mbind, M_bind in *.
    destruct (isClientSupported c w) as [[b|e] wa]; [| done].
    destruct (supported_among rest wa) as [[f|e] wb] eqn:Hrest; [| done].
    injection H1 as <- <-. rewrite (IH _ _ Hrest H2).
    by destruct b.
Qed.

(** Detection among JSON-config adapters alone. *)
Lemma supported_among_json (js : list json_client) (w : world) :
  ∃ found,
    supported_among (JsonConfig <$> js) w = (Ok found, w) ∧
    sublist found (JsonConfig <$> js) ∧
    ∀ x, x ∈ found ↔
         ∃ c, x = JsonConfig c ∧ c ∈ js ∧
              isClientSupported (JsonConfig c) w = (Ok true, w).
Proof.
  induction js as [|j rest (found & Hrest & Hsub & Hin)].
  { exists []. split; [done |]. split; [done |]. intros x. split.
    - by intros ?%elem_of_nil.
    - by intros (c & _ & ?%elem_of_nil & _). }
  cbn [fmap list_fmap supported_among]. unfold mbind, M_bind.
  cbn [isClientSupported].
  destruct (json_isClientSupported_reads j w) as (b & Hb & _).
  rewrite Hb. fold (fmap (M:=list) JsonConfig rest). rewrite Hrest.
  unfold mret, M_ret. destruct b.
  - exists (JsonConfig j :: found). split; [done |].
    split; [by apply sublist_skip |]. intros x. rewrite elem_of_cons, Hin.
    split.
    + intros [-> | (c & -> & Hc & Hs)].
      * exists j. split; [done |]. split; [left | done].
      * exists c. split; [done |]. split; [by right | done].
    + intros (c & -> & [-> | Hc]%elem_of_cons & Hs); [by left |].
      right. by exists c.
  - exists found. split; [done |]. split; [by apply sublist_cons |].
    intros x. rewrite Hin. split.
    + intros (c & -> & Hc & Hs). exists c. split; [done |]. split; [by right | done].
    + intros (c & -> & [-> | Hc]%elem_of_cons & Hs).
      * cbn [isClientSupported] in Hs. congruence.
      * by exists c.
Qed.

Lemma supported_among_one (c : client) (w w1 : world) (b : bool) :
  isClientSupported c w = (Ok b, w1) →
  supported_among [c] w = (Ok (if b then [c] else []), w1).
Proof.
  intros H. cbn [supported_among]. unfold mbind, M_bind. rewrite H.
  by destruct b.
Qed.

(** Detection among the instances of the registry, from the world they
    are asked in. *)
Lemma supported_among_registry (w : world) :
  ∃ found w1 w2,
    supported_among getAllClients w = (Ok found, w2) ∧
    fs w2 = fs w ∧ machine w2 = machine w ∧
    sublist found getAllClients ∧
    (∀ c, JsonConfig c ∈ found ↔
          isClientSupported (JsonConfig c) w = (Ok true, w)) ∧
    (ClaudeCodeClient ∈ found ↔
     isClientSupported ClaudeCodeClient w = (Ok true, w1)) ∧
    (CodexClient ∈ found ↔
     isClientSupported CodexClient w1 = (Ok true, w2)).
Proof.
  destruct (ClaudeCode_isClientSupported_reads w) as (b0 & w1 & H0 & Hfs1 & Hm1).
  set (first := [CursorClient; VSCodeClient; WindsurfClient; ClineClient;
                 RooCodeClient; ZedClient; OpenCodeClient]).
  destruct (supported_among_json first w1) as (f1 & H1 & Hsub1 & Hin1).
  destruct (Codex_isClientSupported_reads w1) as (b8 & w2 & H8 & Hfs2 & Hm2).
  destruct (supported_among_json [AntigravityClient] w2) as (f2 & H2 & Hsub2 & Hin2).
  exists ((if b0 then [ClaudeCodeClient] else []) ++ f1
          ++ (if b8 then [CodexClient] else []) ++ f2), w1, w2.
  assert (∀ c w0, fs w0 = fs w → machine w0 = machine w →
            isClientSupported (JsonConfig c) w0 = (Ok true, w0) ↔
            isClientSupported (JsonConfig c) w = (Ok true, w)) as Hmove.
  { intros c w0 Hfs Hm. cbn [isClientSupported].
    destruct (json_isClientSupported_reads c w) as (b & Hb & Hb').
    rewrite Hb, (Hb' w0 Hfs Hm). split; intros [= ->]; done. }
  split; [| split; [congruence | split; [congruence |]]].
  { change getAllClients
      with ([ClaudeCodeClient] ++ (JsonConfig <$> first) ++ [CodexClient]
            ++ (JsonConfig <$> [AntigravityClient])).
    eapply supported_among_app; [by apply supported_among_one |].
    eapply supported_among_app; [exact H1 |].
    eapply supported_among_app; [by apply supported_among_one | exact H2]. }
  split; [| split; [| split]].
  - change getAllClients
      with ([ClaudeCodeClient] ++ (JsonConfig <$> first) ++ [CodexClient]
            ++ (JsonConfig <$> [AntigravityClient])).
    apply sublist_app; [by destruct b0; repeat constructor |].
    apply sublist_app; [done |].
    apply sublist_app; [by destruct b8; repeat constructor | done].
  - intros c. rewrite !elem_of_app, Hin1, Hin2. split.
    + intros [Hc | [(c' & [= <-] & _ & Hs) | [Hc | (c' & [= <-] & _ & Hs)]]].
      * destruct b0; [by apply list_elem_of_singleton in Hc | by apply elem_of_nil in Hc].
      * apply (Hmove c w1); [congruence.. | done].
      * destruct b8; [by apply list_elem_of_singleton in Hc | by apply elem_of_nil in Hc].
      * apply (Hmove c w2); [congruence.. | done].
    + intros Hs. destruct c.
      all: try (right; left; eexists; split; [reflexivity |];
                split; [unfold first; repeat first [apply list_elem_of_here | apply list_elem_of_further] |];
                apply (Hmove _ w1); [congruence.. | done]).
      right. right. right. eexists. split; [reflexivity |].
      split; [apply list_elem_of_here |]. apply (Hmove _ w2); [congruence.. | done].
  - cbn [isClientSupported]. rewrite H0, !elem_of_app, Hin1, Hin2. split.
    + intros [Hc | [(c' & [=] & _) | [Hc | (c' & [=] & _)]]].
      * destruct b0; [done | by apply elem_of_nil in Hc].
      * destruct b8; [by apply list_elem_of_singleton in Hc | by apply elem_of_nil in Hc].
    + intros [= ->]. left. by apply list_elem_of_singleton.
  - cbn [isClientSupported]. rewrite H8, !elem_of_app, Hin1, Hin2. split.
    + intros [Hc | [(c' & [=] & _) | [Hc | (c' & [=] & _)]]].
      * destruct b0; [by apply list_elem_of_singleton in Hc | by apply elem_of_nil in Hc].
      * destruct b8; [done | by apply elem_of_nil in Hc].
    + intros [= ->]. right. right. left. by apply list_elem_of_singleton.
Qed.

(** X10. [getSupportedClients] asks new instances: it gives the adapters
    that answer true to [isClientSupported], in the order of the registry,
    and writes nothing.  A JSON-config adapter is in the list exactly when
    it is supported in the world the call starts in; Claude Code comes
    first and is asked there, with no binary remembered; Codex is asked in
    the world Claude Code's search leaves, the JSON-config adapters in
    between running no program. *)
Theorem getSupportedClients_detects (w : world) :
  ∃ found w1 w2,
    getSupportedClients w = (Ok found, w2) ∧
    fs w2 = fs w ∧ machine w2 = machine w ∧
    sublist found getAllClients ∧
    (∀ c, JsonConfig c ∈ found ↔
          isClientSupported (JsonConfig c) w = (Ok true, w)) ∧
    (ClaudeCodeClient ∈ found ↔
     isClientSupported ClaudeCodeClient (set_cachedBinary None w)
     = (Ok true, w1)) ∧
    (CodexClient ∈ found ↔
     isClientSupported CodexClient w1 = (Ok true, w2)).
Proof.
  destruct (supported_among_registry (set_cachedBinary None w))
    as (found & w1 & w2 & Hrun & Hfs & Hm & Hsub & Hjson & Hclaude & Hcodex).
  exists found, w1, w2.
  split; [exact Hrun |]. split; [exact Hfs |]. split; [exact Hm |].
  split; [exact Hsub |]. split; [| by split].
  intros c. rewrite Hjson. cbn [isClientSupported].
  destruct (json_isClientSupported_reads c w) as (b & Hb & Hb').
  rewrite Hb, (Hb' (set_cachedBinary None w) eq_refl eq_refl).
  split; intros [= ->]; done.
Qed.

(** ** The credential store *)

Lemma found_key_nonempty (key : string) : found_key key ≠ Some "".
Proof. unfold found_key. case_decide; congruence. Qed.

Lemma truthy_found_key (key : string) :
  truthy (found_key key) = bool_decide (is_Some (found_key key)).
Proof.
  unfold found_key, truthy. case_decide as Hkey.
  - symmetry. apply bool_decide_eq_false_2. by intros [? ?].
  - rewrite decide_False by done. symmetry. apply bool_decide_eq_true_2.
    by eexists.
Qed.

Lemma readKey_with_env (userInfo : result string) (w : world) (key : string) :
  env (machine w) !! "CODEALIVE_API_KEY" = Some key → key ≠ "" →
  readKey userInfo w = (Ok (Some key), w).
Proof.
  intros Henv Hkey. unfold readKey. run. rewrite Henv.
  unfold truthy. by rewrite decide_False.
Qed.

Lemma readKey_without_env (userInfo : result string) (w : world) :
  truthy (env (machine w) !! "CODEALIVE_API_KEY") = false →
  readKey userInfo w
  = match lookup_command (machine w) userInfo with
    | Some run =>
        (Ok (match responder w (history w) run with
             | Ok printed => found_key (trim printed)
             | Throw _ => None
             end),
         after_run run w)
    | None => (Ok None, w)
    end.
Proof.
  intros Henv. unfold readKey, lookup_command, SERVICE_NAME. run. rewrite Henv.
  destruct (decide (platform (machine w) = "darwin")) as [Hd|Hd].
  - rewrite Hd. rewrite !decide_False by done.
    destruct userInfo as [username|e]; [| done].
    unfold execFileSync, after_run, run_of.
    destruct (responder w (history w) _) as [printed|e]; [| done].
    rewrite truthy_found_key. unfold found_key. by case_decide.
  - cbn [truthy].
    destruct (decide (platform (machine w) = "linux")) as [Hl|Hl].
    + rewrite Hl. rewrite !decide_False by done.
      unfold execFileSync, after_run, run_of.
      destruct (responder w (history w) _) as [printed|e]; [| done].
      rewrite truthy_found_key. unfold found_key. by case_decide.
    + cbn [truthy].
      destruct (decide (platform (machine w) = "win32")) as [Hw|Hw]; [| done].
      unfold execFileSync, after_run, run_of.
      destruct (responder w (history w) _) as [printed|e]; [| done].
      rewrite truthy_found_key. unfold found_key. by case_decide.
Qed.

Lemma readKey_returns (userInfo : result string) (w : world) :
  ∃ key w',
    readKey userInfo w = (Ok key, w') ∧ key ≠ Some "" ∧
    fs w' = fs w ∧ machine w' = machine w.
Proof.
  destruct (truthy (env (machine w) !! "CODEALIVE_API_KEY")) eqn:Henv.
  - destruct (env (machine w) !! "CODEALIVE_API_KEY") as [key|] eqn:Hkey; [| done].
    unfold truthy in Henv. case_decide as Hne; [done |].
    rewrite (readKey_with_env userInfo w key Hkey Hne).
    eexists _, _. split; [reflexivity |]. split; [congruence | done].
  - rewrite (readKey_without_env userInfo w Henv).
    destruct (lookup_command (machine w) userInfo) as [run|].
    + eexists _, _. split; [reflexivity |]. split; [| done].
      destruct (responder w (history w) run); [apply found_key_nonempty | done].
    + eexists _, _. split; [reflexivity |]. by split.
Qed.

(** X11. A key in the environment wins: with [CODEALIVE_API_KEY] set to
    something, [readKey] returns it and asks no program, on every
    platform. *)
Theorem readKey_env_first (userInfo : result string) (w : world) (key : string) :
  env (machine w) !! "CODEALIVE_API_KEY" = Some key → key ≠ "" →
  readKey userInfo w = (Ok (Some key), w).
Proof. apply readKey_with_env. Qed.

Lemma readKey_env_first_witness :
  readKey (Ok "u") (world_of (with_env_key linux_host) ∅ keyring)
  = (Ok (Some "env-key"), world_of (with_env_key linux_host) ∅ keyring).
Proof.
  apply (readKey_env_first (Ok "u") (world_of (with_env_key linux_host) ∅ keyring)
           "env-key"); [reflexivity | discriminate].
Defined.

(** X12. Without a key in the environment, [readKey] asks the one store of
    the platform, once, and returns what it prints without the white space
    around it; it returns null when the program fails, when it prints
    nothing but white space, when the user's name cannot be had on macOS,
    and, with no program asked at all, on a platform that has no store. *)
Theorem readKey_from_store (userInfo : result string) (w : world) :
  truthy (env (machine w) !! "CODEALIVE_API_KEY") = false →
  readKey userInfo w
  = match lookup_command (machine w) userInfo with
    | Some run =>
        (Ok (match responder w (history w) run with
             | Ok printed => found_key (trim printed)
             | Throw _ => None
             end),
         after_run run w)
    | None => (Ok None, w)
    end.
Proof. apply readKey_without_env. Qed.

Lemma readKey_from_store_witness :
  readKey (Ok "u") (world_of linux_host ∅ keyring)
  = (Ok (Some "stored-key"),
     after_run (run_of "secret-tool" ["lookup"; "service"; "codealive-api-key"])
       (world_of linux_host ∅ keyring)) ∧
  fst (readKey (Ok "u") (world_of linux_host ∅ blank_keyring)) = Ok None ∧
  fst (readKey (Ok "u") (world_of linux_host ∅ no_program)) = Ok None ∧
  readKey (Ok "u") (world_of freebsd_host ∅ keyring)
  = (Ok None, world_of freebsd_host ∅ keyring).
Proof.
  repeat apply conj.
  - rewrite (readKey_from_store (Ok "u") (world_of linux_host ∅ keyring) eq_refl).
    vm_compute. reflexivity.
  - rewrite (readKey_from_store (Ok "u") (world_of linux_host ∅ blank_keyring) eq_refl).
    vm_compute. reflexivity.
  - rewrite (readKey_from_store (Ok "u") (world_of linux_host ∅ no_program) eq_refl).
    vm_compute. reflexivity.
  - rewrite (readKey_from_store (Ok "u") (world_of freebsd_host ∅ keyring) eq_refl).
    vm_compute. reflexivity.
Defined.

(** X13. [readKey] never throws and never returns the empty string: a key
    it returns has at least one character; it writes no file. *)
Theorem readKey_never_empty (userInfo : result string) (w : world) :
  ∃ key w',
    readKey userInfo w = (Ok key, w') ∧ key ≠ Some "" ∧
    fs w' = fs w ∧ machine w' = machine w.
Proof. apply readKey_returns. Qed.

(** X14. [storeKey] never throws, and it returns true exactly when the
    program that stores the key exits normally.  On Linux that is one run
    of [secret-tool], whose arguments do not hold the key; on Windows one
    run of [cmdkey] with the key in [/pass:]; on macOS [security] is run
    twice, to delete the old entry, whose failure is ignored, and to add
    the new one.  On any other platform, and on macOS when the user's name
    cannot be had, nothing is run and the result is false. *)
Theorem storeKey_result (userInfo : result string) (apiKey : string) (w : world) :
  (platform (machine w) = "linux" →
   let store := run_of "secret-tool"
                  ["store"; "--label=CodeAlive API Key"; "service";
                   "codealive-api-key"] in
   storeKey userInfo apiKey w
   = (Ok (exits_normally (responder w (history w) store)), after_run store w)) ∧
  (platform (machine w) = "win32" →
   let store := run_of "cmdkey"
                  ["/generic:codealive-api-key"; "/user:codealive";
                   "/pass:" +:+ apiKey] in
   storeKey userInfo apiKey w
   = (Ok (exits_normally (responder w (history w) store)), after_run store w)) ∧
  (platform (machine w) = "darwin" →
   ∀ username, userInfo = Ok username →
   let delete := run_of "security"
                   ["delete-generic-password"; "-a"; username; "-s";
                    "codealive-api-key"] in
   let add := run_of "security"
                ["add-generic-password"; "-a"; username; "-s";
                 "codealive-api-key"; "-w"; apiKey] in
   storeKey userInfo apiKey w
   = (Ok (exits_normally (responder w (history w ++ [delete]) add)),
      after_run add (after_run delete w))) ∧
  (platform (machine w) = "darwin" →
   ∀ e, userInfo = Throw e → storeKey userInfo apiKey w = (Ok false, w)) ∧
  (unrecognized (machine w) → storeKey userInfo apiKey w = (Ok false, w)).
Proof.
  unfold storeKey, SERVICE_NAME. run.
  split; [| split; [| split; [| split]]].
  - intros Hp. cbv zeta. rewrite Hp. rewrite decide_False, decide_True by done.
    unfold execFileSync, after_run, run_of.
    by destruct (responder w (history w) _).
  - intros Hp. cbv zeta. rewrite Hp. rewrite !decide_False, decide_True by done.
    unfold execFileSync, after_run, run_of.
    by destruct (responder w (history w) _).
  - intros Hp username ->. cbv zeta. rewrite decide_True by done.
    unfold execFileSync, after_run, run_of.
    destruct (responder w (history w) _);
      cbn [history responder set_history];
      by destruct (responder w (history w ++ _) _).
  - intros Hp e ->. by rewrite decide_True.
  - intros (Hd & Hl & Hw). by rewrite !decide_False.
Qed.

Lemma storeKey_result_witness :
  storeKey (Ok "u") "secret" (world_of linux_host ∅ keyring)
  = (Ok true,
     after_run (run_of "secret-tool"
                  ["store"; "--label=CodeAlive API Key"; "service";
                   "codealive-api-key"])
       (world_of linux_host ∅ keyring)) ∧
  fst (storeKey (Ok "u") "secret" (world_of linux_host ∅ no_program)) = Ok false ∧
  fst (storeKey (Ok "u") "secret" (world_of darwin_host ∅ fresh_keychain)) = Ok true ∧
  storeKey (Ok "u") "secret" (world_of freebsd_host ∅ keyring)
  = (Ok false, world_of freebsd_host ∅ keyring).
Proof.
  destruct (storeKey_result (Ok "u") "secret" (world_of linux_host ∅ keyring))
    as (Hlinux & _).
  destruct (storeKey_result (Ok "u") "secret" (world_of linux_host ∅ no_program))
    as (Hfails & _).
  destruct (storeKey_result (Ok "u") "secret" (world_of darwin_host ∅ fresh_keychain))
    as (_ & _ & Hdarwin & _).
  destruct (storeKey_result (Ok "u") "secret" (world_of freebsd_host ∅ keyring))
    as (_ & _ & _ & _ & Hother).
  repeat apply conj.
  - exact (Hlinux eq_refl).
  - rewrite (Hfails eq_refl). reflexivity.
  - rewrite (Hdarwin eq_refl "u" eq_refl). reflexivity.
  - apply Hother. repeat split; discriminate.
Defined.

(** ** The key in CI mode *)

Lemma storeKey_returns (userInfo : result string) (apiKey : string) (w : world) :
  ∃ stored w', storeKey userInfo apiKey w = (Ok stored, w') ∧ machine w' = machine w.
Proof.
  unfold storeKey. run. unfold execFileSync.
  destruct (decide (platform (machine w) = "darwin")).
  - destruct userInfo as [username|failure];
      cbn [history responder machine set_history].
    + destruct (responder w (history w) _);
        cbn [history responder machine set_history];
        destruct (responder w _ _); by eexists _, _.
    + by eexists _, _.
  - destruct (decide (platform (machine w) = "linux")).
    + destruct (responder w (history w) _); by eexists _, _.
    + destruct (decide (platform (machine w) = "win32")).
      * destruct (responder w (history w) _); by eexists _, _.
      * by eexists _, _.
Qed.

(** X15. [getApiKeyCi] never throws.  When it returns a key, the key is
    not empty, the endpoint has accepted it, it is the key that was passed
    in when one was passed in and the key [readKey] found otherwise, and
    [storeKey] has been called with it.  When it does not return, the exit
    code is 1 and nothing has been stored: the world is as [readKey] left
    it, and untouched when a key was passed in. *)
Theorem getApiKeyCi_outcome (userInfo : result string)
    (fetch : string → string → fetch_outcome) (providedKey : option string)
    (w : world) :
  ∃ lines (ended : ending string) w',
    getApiKeyCi userInfo fetch providedKey w = (Ok (lines, ended), w') ∧
    match ended with
    | Returns key =>
        key ≠ "" ∧ valid (verifyKey (machine w) fetch key) = true ∧
        (∀ provided, providedKey = Some provided → key = provided) ∧
        ∃ w0 stored,
          match providedKey with
          | Some _ => w0 = w
          | None => readKey userInfo w = (Ok (Some key), w0)
          end ∧
          storeKey userInfo key w0 = (Ok stored, w')
    | Exits code =>
        code = 1%nat ∧
        match providedKey with
        | Some _ => w' = w
        | None => ∃ key, readKey userInfo w = (Ok key, w')
        end
    end.
Proof.
  assert (∀ key w0,
            machine w0 = machine w →
            match providedKey with
            | Some provided => key = Some provided ∧ w0 = w
            | None => readKey userInfo w = (Ok key, w0)
            end →
            ∃ lines (ended : ending string) w',
              (if negb (truthy key) then
                 mret ([LogError "No API key found. Pass --api-key or set CODEALIVE_API_KEY env var."],
                       Exits 1)
               else
                 h ← get_host;
                 let result := verifyKey h fetch (or_empty key) in
                 if negb (valid result) then
                   mret ([LogError ("API key verification failed: " +:+ message result)],
                         Exits 1)
                 else
                   saved ← ensureStored userInfo (or_empty key);
                   mret (LogSuccess ("Key verified. " +:+ message result) :: saved,
                         Returns (or_empty key))) w0
              = (Ok (lines, ended), w') ∧
              match ended with
              | Returns key =>
                  key ≠ "" ∧ valid (verifyKey (machine w) fetch key) = true ∧
                  (∀ provided, providedKey = Some provided → key = provided) ∧
                  ∃ w0 stored,
                    match providedKey with
                    | Some _ => w0 = w
                    | None => readKey userInfo w = (Ok (Some key), w0)
                    end ∧
                    storeKey userInfo key w0 = (Ok stored, w')
              | Exits code =>
                  code = 1%nat ∧
                  match providedKey with
                  | Some _ => w' = w
                  | None => ∃ key, readKey userInfo w = (Ok key, w')
                  end
              end) as Hrest.
  { intros key w0 Hm Hkey.
    assert (match providedKey with
            | Some _ => w0 = w
            | None => ∃ key, readKey userInfo w = (Ok key, w0)
            end) as Hexit.
    { destruct providedKey; [by destruct Hkey | by exists key]. }
    destruct (truthy key) eqn:Htruthy; cbn [negb].
    2: { eexists _, _, _. split; [reflexivity |]. by split. }
    destruct key as [k|]; [| done]. cbn [or_empty default]. change (id k) with k.
    unfold truthy in Htruthy. case_decide as Hne; [done |].
    run. rewrite Hm.
    destruct (valid (verifyKey (machine w) fetch k)) eqn:Hvalid; cbn [negb].
    2: { eexists _, _, _. split; [reflexivity |]. by split. }
    unfold ensureStored. run.
    destruct (storeKey_returns userInfo k w0) as (stored & w' & Hstore & _).
    rewrite Hstore.
    exists (LogSuccess ("Key verified. " +:+ message (verifyKey (machine w) fetch k))
            :: (if stored then [LogSuccess ("Key saved to " +:+ getStoreName (machine w')
                                            +:+ ".")]
                else [])),
      (Returns k), w'.
    split; [by destruct stored |].
    split; [done |]. split; [done |]. split.
    - intros provided ->. destruct Hkey as [[= ->] _]. done.
    - exists w0, stored. split; [| done].
      destruct providedKey; [by destruct Hkey | done]. }
  unfold getApiKeyCi. unfold mbind at 1. unfold M_bind at 1.
  destruct providedKey as [provided|].
  - unfold mret at 1. unfold M_ret at 1. by apply Hrest.
  - destruct (readKey_returns userInfo w) as (key & w0 & Hread & _ & _ & Hm).
    destruct (Hrest key w0 Hm Hread) as (lines & ended & w' & Heq & Hspec).
    exists lines, ended, w'. split; [| exact Hspec]. rewrite Hread. exact Heq.
Qed.

(** An empty key that is passed in is not replaced by a stored one:
    [getApiKeyCi] exits with code 1 and asks no store, whatever the
    environment holds. *)
Remark getApiKeyCi_empty_key (userInfo : result string)
    (fetch : string → string → fetch_outcome) (w : world) :
  getApiKeyCi userInfo fetch (Some "") w
  = (Ok ([LogError "No API key found. Pass --api-key or set CODEALIVE_API_KEY env var."],
         Exits 1), w).
Proof. reflexivity. Qed.

(** ** The cases of the test suite *)

Example Cursor_path_on_darwin :
  JsonConfigClient.getConfigPath CursorClient (set_platform "darwin" linux_host)
  = "/home/u/.cursor/mcp.json".
Proof. reflexivity. Qed.

Example Cursor_path_on_linux :
  JsonConfigClient.getConfigPath CursorClient linux_host
  = "/home/u/.config/cursor/mcp.json".
Proof. reflexivity. Qed.

Example Cursor_path_on_win32 :
  JsonConfigClient.getConfigPath CursorClient
    {| platform := "win32"; env := {[ "APPDATA" := "C:/Users/test/AppData/Roaming" ]};
       homedir := "C:/Users/test" |}
  = "C:/Users/test/AppData/Roaming/Cursor/mcp.json".
Proof. reflexivity. Qed.

Example Cursor_entry_for_test_key :
  JsonConfigClient.getServerConfig CursorClient linux_host "test-key"
  = JObj [ ("command", JStr "uvx");
           ("args", JArr [JStr "codealive-mcp"]);
           ("env", JObj [("CODEALIVE_API_KEY", JStr "test-key")]) ].
Proof. reflexivity. Qed.

Example addServer_creates_the_config :
  config_document CursorClient
    (snd (addServer (JsonConfig CursorClient) "test-key" bare_world))
  = Some (JObj [ ("mcpServers",
                  JObj [ ("codealive",
                         JsonConfigClient.getServerConfig CursorClient linux_host
                           "test-key") ]) ]).
Proof. vm_compute. reflexivity. Qed.

Example removeServer_without_server_object :
  removeServer (JsonConfig CursorClient) cursor_world_without_servers
  = (Ok (failed "Can not delete in empty document"), cursor_world_without_servers).
Proof. vm_compute. reflexivity. Qed.

Example addServer_on_a_truncated_text :
  config_text CursorClient
    (snd (addServer (JsonConfig CursorClient) "test-key" cursor_world_truncated))
  = {| document :=
         Some (JObj [("mcpServers",
                      JObj [("codealive",
                             JsonConfigClient.getServerConfig CursorClient
                               linux_host "test-key")])]);
       truncated := true |}.
Proof. vm_compute. reflexivity. Qed.

Example parse_keeps_the_last_member :
  jsonc.parse (text_of (JObj [("a", JNum "1"); ("a", JNum "2")]))
  = Some (VObj {[ "a" := VNum "2" ]} None).
Proof. vm_compute. reflexivity. Qed.

Example ClaudeCode_detected_on_disk :
  fst (isClientSupported ClaudeCodeClient claude_on_disk) = Ok true.
Proof. vm_compute. reflexivity. Qed.

Example ClaudeCode_not_detected :
  fst (isClientSupported ClaudeCodeClient bare_world) = Ok false.
Proof. vm_compute. reflexivity. Qed.

Example ClaudeCode_add_args_self_hosted :
  ClaudeCode.add_args self_hosted "my-key"
  = ["mcp"; "add"; "codealive"; "-e"; "-e";
     "CODEALIVE_BASE_URL=https://self-hosted.example.com";
     "CODEALIVE_API_KEY=my-key"; "-s"; "user"; "--"; "uvx"; "codealive-mcp"] ∧
  flag_values "-e" (ClaudeCode.add_args self_hosted "my-key") = ["-e"].
Proof. split; reflexivity. Qed.

Example Codex_add_args_self_hosted :
  Codex.add_args self_hosted "my-key"
  = ["mcp"; "add"; "codealive"; "--env"; "CODEALIVE_API_KEY=my-key"; "--env";
     "CODEALIVE_BASE_URL=https://self-hosted.example.com"; "--"; "uvx";
     "codealive-mcp"].
Proof. reflexivity. Qed.

Example registry_order :
  client_name <$> getAllClients
  = ["Claude Code"; "Cursor"; "VS Code"; "Windsurf"; "Cline"; "Roo Code"; "Zed";
     "OpenCode"; "Codex"; "Antigravity"].
Proof. reflexivity. Qed.
